(** * link-milestone: a shallow embedding of [main.go]

    The program is a short sequential script: it reads three environment
    variables, asks the issue tracker for the milestones of a repository,
    picks one, and sets it on the merged pull request and on the issue the
    pull request's description closes.

    Go strings are byte strings: they are modelled as [string] (a list of
    [ascii], one per byte).  Go's [int] is modelled as [Z]; the program does
    no arithmetic on it apart from the loop index, and [Atoi] clamps to the
    64-bit range explicitly.  A run-time panic is an explicit outcome. *)

From Stdlib Require Import ZArith List Bool Ascii String DecimalString Lia.
From stdpp Require Import gmap strings list fin_maps.

Local Open Scope string_scope.
Local Open Scope Z_scope.
Local Open Scope list_scope.

(** ** Bytes and strings *)

Module Bytes.

Definition code (c : ascii) : N := N_of_ascii c.

Definition between (lo hi c : ascii) : bool :=
  (code lo <=? code c)%N && (code c <=? code hi)%N.

Definition is_digit (c : ascii) : bool := between "0" "9" c.
Definition is_upper (c : ascii) : bool := between "A" "Z" c.
Definition is_lower (c : ascii) : bool := between "a" "z" c.

(** [v[i:]]: [None] stands for the slice-bounds panic. *)
Fixpoint slice_from (i : nat) (s : string) : option string :=
  match i, s with
  | O, _ => Some s
  | S _, EmptyString => None
  | S i', String _ s' => slice_from i' s'
  end.

(** [drop] never fails; used where the index is known to be in range. *)
Fixpoint drop_bytes (i : nat) (s : string) : string :=
  match i, s with
  | O, _ => s
  | S _, EmptyString => EmptyString
  | S i', String _ s' => drop_bytes i' s'
  end.

(** Go's [<] on strings: byte-wise lexicographic order. *)
Fixpoint lt_string (x y : string) : bool :=
  match x, y with
  | _, EmptyString => false
  | EmptyString, String _ _ => true
  | String a x', String b y' =>
      if (code a <? code b)%N then true
      else if (code b <? code a)%N then false
      else lt_string x' y'
  end.

Definition all_bytes (p : ascii -> bool) (s : string) : bool :=
  forallb p (list_ascii_of_string s).

End Bytes.

(** ** The [regexp] package, as far as the three patterns of the program
    use it: literals, byte classes, [^], [$], concatenation, alternation,
    [?] and [+].  A capture group matches what its body matches, so groups
    are not represented.  [MatchString] is an unanchored search. *)

Module Regexp.

Inductive regex : Type :=
| Empty
| Lit (c : ascii)
| Class (ranges : list (ascii * ascii))
| BeginText
| EndText
| Cat (r1 r2 : regex)
| Alt (r1 r2 : regex)
| Quest (r : regex)
| Plus (r : regex).

(** A cursor is the number of bytes already read and the text still ahead. *)
Definition cursor : Type := nat * string.

Definition in_class (ranges : list (ascii * ascii)) (c : ascii) : bool :=
  existsb (fun r => Bytes.between (fst r) (snd r) c) ranges.

(** Zero or more rounds of [f], each round reading at least one byte. *)
Fixpoint rounds (fuel : nat) (f : cursor -> list cursor) (c : cursor) : list cursor :=
  c :: match fuel with
       | O => []
       | S n =>
           flat_map (rounds n f)
                    (List.filter (fun c' => (fst c <? fst c')%nat) (f c))
       end.

(** All cursors that [r] can reach from [c]. *)
Fixpoint run (r : regex) (c : cursor) : list cursor :=
  match r with
  | Empty => [c]
  | Lit a =>
      match snd c with
      | String b rest => if Ascii.eqb a b then [(S (fst c), rest)] else []
      | EmptyString => []
      end
  | Class ranges =>
      match snd c with
      | String b rest => if in_class ranges b then [(S (fst c), rest)] else []
      | EmptyString => []
      end
  | BeginText => match fst c with O => [c] | S _ => [] end
  | EndText => match snd c with EmptyString => [c] | String _ _ => [] end
  | Cat r1 r2 => flat_map (run r2) (run r1 c)
  | Alt r1 r2 => run r1 c ++ run r2 c
  | Quest r1 => run r1 c ++ [c]
  | Plus r1 => flat_map (rounds (String.length (snd c)) (run r1)) (run r1 c)
  end.

Definition matches_at (r : regex) (s : string) (i : nat) : bool :=
  match run r (i, Bytes.drop_bytes i s) with
  | [] => false
  | _ :: _ => true
  end.

Definition MatchString (r : regex) (s : string) : bool :=
  existsb (matches_at r s) (seq 0 (S (String.length s))).

(** Notation helpers for writing patterns down. *)
Fixpoint lits (s : string) : regex :=
  match s with
  | String a EmptyString => Lit a
  | String a rest => Cat (Lit a) (lits rest)
  | EmptyString => Empty
  end.

Fixpoint cat (rs : list regex) : regex :=
  match rs with
  | [] => Empty
  | [r] => r
  | r :: rs' => Cat r (cat rs')
  end.

Definition digit : regex := Class [("0", "9")]%char.
Definition either (a b : ascii) : regex := Class [(a, a); (b, b)].

End Regexp.

(** ** The [strings] package *)

Module Strings.

(** [strings.Split(s, sep)] for a separator of one byte, which is what both
    calls of the program pass.  The result is never empty. *)
Fixpoint Split (s : string) (sep : ascii) : list string :=
  match s with
  | EmptyString => [EmptyString]
  | String c rest =>
      if Ascii.eqb c sep then EmptyString :: Split rest sep
      else match Split rest sep with
           | tok :: toks => String c tok :: toks
           | [] => [String c EmptyString]
           end
  end.

Definition to_lower (c : ascii) : ascii :=
  if Bytes.is_upper c then ascii_of_N (Bytes.code c + 32) else c.

(** [strings.EqualFold(s, t)] for an ASCII [t], which is what both calls of
    the program pass (the literal "closed").  An ASCII byte of [s] is compared
    without case.  The only runes outside ASCII that fold to an ASCII letter
    are U+017F (to s; bytes C5 BF) and U+212A (to k; bytes E2 84 AA). *)
Fixpoint EqualFold (s t : string) : bool :=
  match t with
  | EmptyString => match s with EmptyString => true | _ => false end
  | String b t' =>
      match s with
      | EmptyString => false
      | String a s' =>
          if (Bytes.code a <? 128)%N then
            Ascii.eqb (to_lower a) (to_lower b) && EqualFold s' t'
          else if Ascii.eqb (to_lower b) "s" then
            match s with
            | String "197" (String "191" s2) => EqualFold s2 t'
            | _ => false
            end
          else if Ascii.eqb (to_lower b) "k" then
            match s with
            | String "226" (String "132" (String "170" s3)) => EqualFold s3 t'
            | _ => false
            end
          else false
      end
  end.

End Strings.

(** ** The [strconv] package: [Atoi] on a platform with 64-bit [int] *)

Module Strconv.

Inductive NumErr : Type := ErrSyntax | ErrRange.

Definition digit_val (c : ascii) : Z := Z.of_N (Bytes.code c) - 48.

Definition maxUint64 : Z := 2 ^ 64 - 1.
Definition maxInt64 : Z := 2 ^ 63 - 1.
Definition minInt64 : Z := - 2 ^ 63.

(** The digit loop of [ParseUint(s, 10, 64)]. *)
Fixpoint ParseUint_loop (s : string) (n : Z) : Z * option NumErr :=
  match s with
  | EmptyString => (n, None)
  | String c rest =>
      if negb (Bytes.is_digit c) then (0, Some ErrSyntax)
      else if n >=? maxUint64 / 10 + 1 then (maxUint64, Some ErrRange)
      else
        let n1 := n * 10 + digit_val c in
        if n1 >? maxUint64 then (maxUint64, Some ErrRange)
        else ParseUint_loop rest n1
  end.

Definition ParseUint (s : string) : Z * option NumErr :=
  match s with
  | EmptyString => (0, Some ErrSyntax)
  | _ => ParseUint_loop s 0
  end.

Definition ParseInt (s : string) : Z * option NumErr :=
  match s with
  | EmptyString => (0, Some ErrSyntax)
  | String c rest =>
      let neg := Ascii.eqb c "-" in
      let s1 := if Ascii.eqb c "+" || neg then rest else s in
      match ParseUint s1 with
      | (_, Some ErrSyntax) => (0, Some ErrSyntax)
      | (un, _) =>
          if negb neg && (un >=? 2 ^ 63) then (maxInt64, Some ErrRange)
          else if neg && (un >? 2 ^ 63) then (minInt64, Some ErrRange)
          else (if neg then - un else un, None)
      end
  end.

(** The loop of [Atoi]'s fast path (fewer than 19 bytes). *)
Fixpoint Atoi_fast_loop (s : string) (n : Z) : Z * option NumErr :=
  match s with
  | EmptyString => (n, None)
  | String ch rest =>
      if negb (Bytes.is_digit ch) then (0, Some ErrSyntax)
      else Atoi_fast_loop rest (n * 10 + digit_val ch)
  end.

Definition Atoi (s : string) : Z * option NumErr :=
  let sLen := String.length s in
  if (0 <? sLen)%nat && (sLen <? 19)%nat then
    match s with
    | EmptyString => (0, Some ErrSyntax)
    | String c rest =>
        let signed := Ascii.eqb c "-" || Ascii.eqb c "+" in
        let s1 := if signed then rest else s in
        if signed && (String.length s1 <? 1)%nat then (0, Some ErrSyntax)
        else
          match Atoi_fast_loop s1 0 with
          | (n, None) => (if Ascii.eqb c "-" then - n else n, None)
          | (_, Some e) => (0, Some e)
          end
    end
  else ParseInt s.

(** [%d] of an [int]. *)
Definition Itoa (n : Z) : string := NilZero.string_of_int (Z.to_int n).

End Strconv.

(** ** The [golang.org/x/mod/semver] package

    A version string accepted by the package has the form
    vMAJOR[.MINOR[.PATCH[-PRERELEASE][+BUILD]]] and must begin with the
    letter v.  [Compare] puts every invalid string below every valid one and
    makes all invalid strings equal; [Sort] orders by [Compare] and falls
    back on the byte order of the strings when [Compare] gives 0. *)

Module Semver.

Record parsed : Type := {
  major : string;
  minor : string;
  patch : string;
  short : string;
  prerelease : string;
  build : string
}.

Fixpoint span_digits (v : string) : string * string :=
  match v with
  | String c rest =>
      if Bytes.is_digit c then
        let '(t, r) := span_digits rest in (String c t, r)
      else (EmptyString, v)
  | EmptyString => (EmptyString, EmptyString)
  end.

Definition parseInt (v : string) : option (string * string) :=
  match v with
  | EmptyString => None
  | String c _ =>
      if negb (Bytes.is_digit c) then None
      else
        let '(t, rest) := span_digits v in
        if Ascii.eqb c "0" && negb (String.length t =? 1)%nat then None
        else Some (t, rest)
  end.

Definition isIdentChar (c : ascii) : bool :=
  Bytes.is_upper c || Bytes.is_lower c || Bytes.is_digit c || Ascii.eqb c "-".

Definition isNum (v : string) : bool := Bytes.all_bytes Bytes.is_digit v.

Definition isBadNum (v : string) : bool :=
  match v with
  | String c _ => isNum v && (1 <? String.length v)%nat && Ascii.eqb c "0"
  | EmptyString => false
  end.

Definition snoc (s : string) (c : ascii) : string := s ++ String c EmptyString.

(** The loop of [parsePrerelease]: [ident] is [v[start:i]], [seen] is [v[:i]]. *)
Fixpoint parsePrerelease_loop (ident seen v : string) : option (string * string) :=
  let finish :=
    if String.eqb ident "" || isBadNum ident then None else Some (seen, v) in
  match v with
  | EmptyString => finish
  | String c rest =>
      if Ascii.eqb c "+" then finish
      else if negb (isIdentChar c) && negb (Ascii.eqb c ".") then None
      else if Ascii.eqb c "." then
        if String.eqb ident "" || isBadNum ident then None
        else parsePrerelease_loop "" (snoc seen c) rest
      else parsePrerelease_loop (snoc ident c) (snoc seen c) rest
  end.

Definition parsePrerelease (v : string) : option (string * string) :=
  match v with
  | String "-" rest => parsePrerelease_loop "" "-" rest
  | _ => None
  end.

Fixpoint parseBuild_loop (ident seen v : string) : option (string * string) :=
  match v with
  | EmptyString => if String.eqb ident "" then None else Some (seen, v)
  | String c rest =>
      if negb (isIdentChar c) && negb (Ascii.eqb c ".") then None
      else if Ascii.eqb c "." then
        if String.eqb ident "" then None
        else parseBuild_loop "" (snoc seen c) rest
      else parseBuild_loop (snoc ident c) (snoc seen c) rest
  end.

Definition parseBuild (v : string) : option (string * string) :=
  match v with
  | String "+" rest => parseBuild_loop "" "+" rest
  | _ => None
  end.

(** What follows the patch number. *)
Definition parse_tail (ma mi pa v : string) : option parsed :=
  let pre :=
    match v with
    | String "-" _ =>
        match parsePrerelease v with
        | Some (t, rest) => Some (t, rest)
        | None => None
        end
    | _ => Some (EmptyString, v)
    end in
  match pre with
  | None => None
  | Some (p, v1) =>
      let bld :=
        match v1 with
        | String "+" _ => parseBuild v1
        | _ => Some (EmptyString, v1)
        end in
      match bld with
      | None => None
      | Some (b, v2) =>
          if String.eqb v2 "" then
            Some {| major := ma; minor := mi; patch := pa; short := "";
                    prerelease := p; build := b |}
          else None
      end
  end.

Definition parse (v : string) : option parsed :=
  match v with
  | String "v" v0 =>
      match parseInt v0 with
      | None => None
      | Some (ma, EmptyString) =>
          Some {| major := ma; minor := "0"; patch := "0"; short := ".0.0";
                  prerelease := ""; build := "" |}
      | Some (ma, String "." v1) =>
          match parseInt v1 with
          | None => None
          | Some (mi, EmptyString) =>
              Some {| major := ma; minor := mi; patch := "0"; short := ".0";
                      prerelease := ""; build := "" |}
          | Some (mi, String "." v2) =>
              match parseInt v2 with
              | None => None
              | Some (pa, v3) => parse_tail ma mi pa v3
              end
          | Some (_, String _ _) => None
          end
      | Some (_, String _ _) => None
      end
  | _ => None
  end.

Definition IsValid (v : string) : bool :=
  match parse v with Some _ => true | None => false end.

Definition compareInt (x y : string) : Z :=
  if String.eqb x y then 0
  else if (String.length x <? String.length y)%nat then -1
  else if (String.length y <? String.length x)%nat then 1
  else if Bytes.lt_string x y then -1 else 1.

Fixpoint nextIdent (x : string) : string * string :=
  match x with
  | String c rest =>
      if Ascii.eqb c "." then (EmptyString, x)
      else let '(dx, r) := nextIdent rest in (String c dx, r)
  | EmptyString => (EmptyString, EmptyString)
  end.

Definition tail (x : string) : string :=
  match x with String _ r => r | EmptyString => EmptyString end.

(** The loop of [comparePrerelease]; every round drops at least one byte of
    [x], so [String.length x] rounds are enough. *)
Fixpoint comparePrerelease_loop (fuel : nat) (x y : string) : Z :=
  match fuel with
  | O => if String.eqb x "" then -1 else 1
  | S fuel' =>
      if String.eqb x "" || String.eqb y "" then
        (if String.eqb x "" then -1 else 1)
      else
        let '(dx, x') := nextIdent (tail x) in
        let '(dy, y') := nextIdent (tail y) in
        if String.eqb dx dy then comparePrerelease_loop fuel' x' y'
        else
          let ix := isNum dx in
          let iy := isNum dy in
          if negb (Bool.eqb ix iy) then (if ix then -1 else 1)
          else if ix && (String.length dx <? String.length dy)%nat then -1
          else if ix && (String.length dy <? String.length dx)%nat then 1
          else if Bytes.lt_string dx dy then -1 else 1
  end.

Definition comparePrerelease (x y : string) : Z :=
  if String.eqb x y then 0
  else if String.eqb x "" then 1
  else if String.eqb y "" then -1
  else comparePrerelease_loop (String.length x) x y.

Definition Compare (v w : string) : Z :=
  match parse v, parse w with
  | None, None => 0
  | None, Some _ => -1
  | Some _, None => 1
  | Some pv, Some pw =>
      let c := compareInt (major pv) (major pw) in
      if negb (c =? 0) then c
      else
        let c := compareInt (minor pv) (minor pw) in
        if negb (c =? 0) then c
        else
          let c := compareInt (patch pv) (patch pw) in
          if negb (c =? 0) then c
          else comparePrerelease (prerelease pv) (prerelease pw)
  end.

(** [ByVersion.Less] on the two strings at the compared positions. *)
Definition Less (v w : string) : bool :=
  let cmp := Compare v w in
  if negb (cmp =? 0) then cmp <? 0 else Bytes.lt_string v w.

(** [Sort] hands [Less] to [sort.Sort].  For a strict total order the result
    is the one ascending arrangement of the slice; insertion computes it. *)
Fixpoint insert_sorted (v : string) (l : list string) : list string :=
  match l with
  | [] => [v]
  | w :: l' => if Less w v then w :: insert_sorted v l' else v :: l
  end.

Fixpoint Sort (l : list string) : list string :=
  match l with
  | [] => []
  | v :: l' => insert_sorted v (Sort l')
  end.

End Semver.

(** ** Errors, panics and the issue tracker

    Every error of the program is built by [fmt.Errorf] from a fixed context
    text and, mostly, the text of a cause.  The structure is kept rather than
    the rendered text. *)

Inductive error : Type :=
| ClientError (msg : string)
| NumError (func num : string) (err : Strconv.NumErr)
| ErrorString (text : string)
| Errorf (context : string) (cause : error).

Inductive panic : Type :=
| IndexOutOfRange (index len : nat)
| SliceOutOfRange (index len : nat)
| NilDereference.

Inductive outcome (A : Type) : Type :=
| Done (a : A)
| Panic (p : panic).
Arguments Done {A} a.
Arguments Panic {A} p.

Module Milestone.
Record t : Type := { Title : option string; State : option string; Number : option Z }.
End Milestone.

Module Issue.
Record t : Type := {
  Body : option string;
  State : option string;
  Milestone : option Milestone.t
}.
End Issue.

(** The requests the program sends, in the order it sends them. *)
Inductive call : Type :=
| ListMilestonesCall (owner repo : string)
| GetCall (owner repo : string) (number : Z)
| EditCall (owner repo : string) (number : Z) (milestone : Z).

Definition is_write (c : call) : bool :=
  match c with EditCall _ _ _ _ => true | _ => false end.

Inductive entry : Type :=
| Printf (text : string)
| Fatal (err : error).

(** The tracker holds the milestones and the issues (pull requests are
    issues) of the one repository the run talks to.  [faults] has one entry
    per request still to come: [Some msg] makes that request fail with
    [msg]; past its end no request is made to fail.  [calls] and [output]
    grow at the end. *)
Record World : Type := {
  milestones : list Milestone.t;
  issues : gmap Z Issue.t;
  faults : list (option string);
  calls : list call;
  output : list entry
}.

Definition M (A : Type) : Type := World -> outcome A * World.

Definition ret {A} (a : A) : M A := fun w => (Done a, w).

Definition bind {A B} (m : M A) (k : A -> M B) : M B :=
  fun w =>
    match m w with
    | (Done a, w') => k a w'
    | (Panic p, w') => (Panic p, w')
    end.

Notation "x <- m ;; k" := (bind m (fun x => k))
  (at level 100, m at next level, right associativity).
Notation "m ;;; k" := (bind m (fun _ => k))
  (at level 100, right associativity).

Definition throw {A} (p : panic) : M A := fun w => (Panic p, w).

(** [*p] and [p.f] on a pointer. *)
Definition deref {A} (p : option A) : M A :=
  match p with
  | Some a => ret a
  | None => throw NilDereference
  end.

(** [l[i]]. *)
Definition index {A} (l : list A) (i : nat) : M A :=
  match l !! i with
  | Some a => ret a
  | None => throw (IndexOutOfRange i (length l))
  end.

(** [s[i:]]. *)
Definition slice (s : string) (i : nat) : M string :=
  match Bytes.slice_from i s with
  | Some t => ret t
  | None => throw (SliceOutOfRange i (String.length s))
  end.

Definition log_Printf (text : string) : M unit :=
  fun w =>
    (Done tt,
     {| milestones := milestones w; issues := issues w; faults := faults w;
        calls := calls w; output := output w ++ [Printf text] |}).

(** ** The client of the tracker ([client.Issues]) *)

Module Client.

(** Records the request and takes the fault planned for it, if any. *)
Definition request (c : call) : M (option string) :=
  fun w =>
    (Done (match faults w with f :: _ => f | [] => None end),
     {| milestones := milestones w; issues := issues w;
        faults := List.tl (faults w);
        calls := calls w ++ [c]; output := output w |}).

Definition ListMilestones (owner repo : string)
  : M (list Milestone.t * option error) :=
  f <- request (ListMilestonesCall owner repo) ;;
  match f with
  | Some msg => ret ([], Some (ClientError msg))
  | None => fun w => (Done (milestones w, None), w)
  end.

(** On failure the client returns a nil record next to the error. *)
Definition Get (owner repo : string) (number : Z)
  : M (option Issue.t * option error) :=
  f <- request (GetCall owner repo number) ;;
  match f with
  | Some msg => ret (None, Some (ClientError msg))
  | None =>
      fun w =>
        match issues w !! number with
        | Some i => (Done (Some i, None), w)
        | None => (Done (None, Some (ClientError "404 Not Found")), w)
        end
  end.

Definition has_number (n : Z) (m : Milestone.t) : bool :=
  match Milestone.Number m with Some k => k =? n | None => false end.

(** [Edit] with a request that sets only the milestone. *)
Definition Edit (owner repo : string) (number : Z) (milestone : Z)
  : M (option error) :=
  f <- request (EditCall owner repo number milestone) ;;
  match f with
  | Some msg => ret (Some (ClientError msg))
  | None =>
      fun w =>
        match issues w !! number, List.find (has_number milestone) (milestones w) with
        | None, _ => (Done (Some (ClientError "404 Not Found")), w)
        | Some _, None => (Done (Some (ClientError "422 Validation Failed")), w)
        | Some i, Some m =>
            (Done None,
             {| milestones := milestones w;
                issues := <[number := {| Issue.Body := Issue.Body i;
                                         Issue.State := Issue.State i;
                                         Issue.Milestone := Some m |}]> (issues w);
                faults := faults w; calls := calls w; output := output w |})
        end
  end.

End Client.

(** ** The program *)

Import Regexp.

Record GitHubIssue : Type := { Owner : string; Repo : string; Id : Z }.

(** [v[0-9]\.[0-9]+\.[0-9]] *)
Definition version_title : regex :=
  cat [Lit "v"; digit; Lit "."; Plus digit; Lit "."; digit].

(** [^[fF]ix(e)?(s)?(d)?$|[cC]lose(s)?(d)?$|[rR]esolve(s)?(d)?$] *)
Definition keywords : regex :=
  Alt (cat [BeginText; either "f" "F"; lits "ix";
            Quest (Lit "e"); Quest (Lit "s"); Quest (Lit "d"); EndText])
      (Alt (cat [either "c" "C"; lits "lose";
                 Quest (Lit "s"); Quest (Lit "d"); EndText])
           (cat [either "r" "R"; lits "esolve";
                 Quest (Lit "s"); Quest (Lit "d"); EndText])).

(** [^#[0-9]+] *)
Definition issue : regex := cat [BeginText; Lit "#"; Plus digit].

(** The loop that fills the map from stripped title to milestone number. *)
Fixpoint collect (ghMilestones : list Milestone.t) (acc : gmap string Z)
  : M (gmap string Z) :=
  match ghMilestones with
  | [] => ret acc
  | m :: rest =>
      title <- deref (Milestone.Title m) ;;
      if MatchString version_title title then
        state <- deref (Milestone.State m) ;;
        if negb (Strings.EqualFold state "closed") then
          key <- slice title 1 ;;
          number <- deref (Milestone.Number m) ;;
          collect rest (<[key := number]> acc)
        else collect rest acc
      else collect rest acc
  end.

(** The keys of the map, in the order the map hands them out.  Go leaves
    that order open; [Semver.Sort] is applied to it next. *)
Definition keys (m : gmap string Z) : list string := (map_to_list m).*1.

Definition getMilestoneId (g : GitHubIssue) : M (option Z * option error) :=
  res <- Client.ListMilestones (Owner g) (Repo g) ;;
  match snd res with
  | Some err => ret (None, Some (Errorf "retrieving list of milestones: " err))
  | None =>
      table <- collect (fst res) ∅ ;;
      if (size table =? 0)%nat then
        ret (None, Some (ErrorString "no open version milestones were found"))
      else
        let versions := Semver.Sort (keys table) in
        lowest <- index versions 0 ;;
        let milestoneId := default 0 (table !! lowest) in
        log_Printf ("[DEBUG] lowest open version milestone: " ++ lowest) ;;;
        ret (Some milestoneId, None)
  end.

(** The loop over the tokens of the body: [i] is the position of the head of
    [todo] in [bodySplit].  [Some id] is the early return. *)
Fixpoint scan (bodySplit : list string) (i : nat) (todo : list string)
  : M (option Z) :=
  match todo with
  | [] => ret None
  | s :: todo' =>
      if MatchString keywords s then
        next <- index bodySplit (i + 1) ;;
        if MatchString issue next then
          digits <- slice next 1 ;;
          ret (Some (fst (Strconv.Atoi digits)))
        else scan bodySplit (S i) todo'
      else scan bodySplit (S i) todo'
  end.

Definition getLinkedIssue (g : GitHubIssue) : M (option Z * option error) :=
  res <- Client.Get (Owner g) (Repo g) (Id g) ;;
  resp <- deref (fst res) ;;
  found <-
    match Issue.Body resp with
    | Some body =>
        let bodySplit := Strings.Split body " " in
        scan bodySplit 0 bodySplit
    | None => ret None
    end ;;
  match found with
  | Some id => ret (Some id, None)
  | None =>
      log_Printf "[DEBUG] no special keywords found in issue description" ;;;
      ret (None, None)
  end.

Definition updateMilestone (g : GitHubIssue) (milestoneId : Z) : M (option error) :=
  res <- Client.Get (Owner g) (Repo g) (Id g) ;;
  match snd res with
  | Some err =>
      ret (Some (Errorf ("getting issue #" ++ Strconv.Itoa (Id g) ++ ": ") err))
  | None =>
      iss <- deref (fst res) ;;
      apply <-
        match Issue.Milestone iss with
        | None =>
            state <- deref (Issue.State iss) ;;
            ret (Strings.EqualFold state "closed")
        | Some _ => ret false
        end ;;
      if apply : bool then
        err <- Client.Edit (Owner g) (Repo g) (Id g) milestoneId ;;
        match err with
        | Some e =>
            ret (Some (Errorf ("updating milestone on issue #"
                               ++ Strconv.Itoa (Id g) ++ ": ") e))
        | None => ret None
        end
      else
        current <- deref (Issue.Milestone iss) ;;
        title <- deref (Milestone.Title current) ;;
        log_Printf ("[DEBUG] github issue #" ++ Strconv.Itoa (Id g)
                    ++ " already has milestone " ++ title) ;;;
        ret None
  end.

(** What viper returns for the three keys; an unset variable reads as "". *)
Record Env : Type := {
  github_token : string;
  github_repository : string;
  pr_number : string
}.

Definition run (env : Env) : M (option error) :=
  owner <- index (Strings.Split (github_repository env) "/") 0 ;;
  repo <- index (Strings.Split (github_repository env) "/") 1 ;;
  match Strconv.Atoi (pr_number env) with
  | (_, Some e) =>
      ret (Some (Errorf "parsing pr number: "
                        (NumError "Atoi" (pr_number env) e)))
  | (prId, None) =>
      let pr := {| Owner := owner; Repo := repo; Id := prId |} in
      got <- getMilestoneId pr ;;
      match snd got with
      | Some err => ret (Some (Errorf "getting milestone id: " err))
      | None =>
          match fst got with
          | None =>
              log_Printf "[DEBUG] no open version milestones exists in github" ;;;
              ret None
          | Some milestoneId =>
              err <- updateMilestone pr milestoneId ;;
              match err with
              | Some e => ret (Some e)
              | None =>
                  li <- getLinkedIssue pr ;;
                  match snd li with
                  | Some e =>
                      ret (Some (Errorf ("getting linked issues for #"
                                         ++ Strconv.Itoa (Id pr) ++ ": ") e))
                  | None =>
                      match fst li with
                      | Some liId =>
                          updateMilestone
                            {| Owner := owner; Repo := repo; Id := liId |}
                            milestoneId
                      | None => ret None
                      end
                  end
              end
          end
      end
  end.

(** [main]: the exit status of the process and the world it leaves.
    [log.Fatal] prints the error and exits with 1; a panic that nothing
    recovers ends the process with status 2. *)
Definition main (env : Env) (w : World) : Z * World :=
  match run env w with
  | (Done (Some err), w') =>
      (1, {| milestones := milestones w'; issues := issues w';
             faults := faults w'; calls := calls w';
             output := output w' ++ [Fatal err] |})
  | (Done None, w') => (0, w')
  | (Panic _, w') => (2, w')
  end.

(** ** Fixtures: small trackers and environments *)

Module Fixtures.

Definition open_milestone (title : string) (number : Z) : Milestone.t :=
  {| Milestone.Title := Some title; Milestone.State := Some "open";
     Milestone.Number := Some number |}.

Definition closed_milestone (title : string) (number : Z) : Milestone.t :=
  {| Milestone.Title := Some title; Milestone.State := Some "closed";
     Milestone.Number := Some number |}.

Definition record (body : option string) (state : string)
  (m : option Milestone.t) : Issue.t :=
  {| Issue.Body := body; Issue.State := Some state; Issue.Milestone := m |}.

Definition tracker (ms : list Milestone.t) (recs : list (Z * Issue.t))
  (fs : list (option string)) : World :=
  {| milestones := ms; issues := list_to_map recs; faults := fs;
     calls := []; output := [] |}.

Definition env (repository number : string) : Env :=
  {| github_token := "secret"; github_repository := repository;
     pr_number := number |}.

Definition pull (n : Z) : GitHubIssue :=
  {| Owner := "octo"; Repo := "demo"; Id := n |}.

(** Pull request 10 of the examples once it is on v0.9.0 (number 3). *)
Definition on_milestone_record : Issue.t :=
  record (Some "Closes #7") "closed" (Some (open_milestone "v0.9.0" 3)).

End Fixtures.

(** Whether the record counts as closed for the program. *)
Definition closed (iss : Issue.t) : bool :=
  match Issue.State iss with
  | Some state => Strings.EqualFold state "closed"
  | None => false
  end.

Definition has_slash (s : string) : bool :=
  existsb (Ascii.eqb "/") (list_ascii_of_string s).

Definition writes (w : World) : list call := List.filter is_write (calls w).

(** The fault planned for the [k]-th request from now. *)
Definition planned (w : World) (k : nat) : option string :=
  match faults w !! k with
  | Some f => f
  | None => None
  end.

Definition milestone_of (w : World) (n : Z) : option Milestone.t :=
  match issues w !! n with
  | Some iss => Issue.Milestone iss
  | None => None
  end.

(** The record [iss] once it is on the milestone [m]. *)
Definition on_milestone (iss : Issue.t) (m : Milestone.t) : Issue.t :=
  {| Issue.Body := Issue.Body iss; Issue.State := Issue.State iss;
     Issue.Milestone := Some m |}.

(** The world once the request [c] has been recorded. *)
Definition sent (c : call) (w : World) : World :=
  {| milestones := milestones w; issues := issues w;
     faults := List.tl (faults w);
     calls := calls w ++ [c]; output := output w |}.

(** The test of the loop of [getMilestoneId] on a milestone whose title and
    state are set. *)
Definition is_open_version (m : Milestone.t) : bool :=
  match Milestone.Title m, Milestone.State m with
  | Some title, Some state =>
      MatchString version_title title && negb (Strings.EqualFold state "closed")
  | _, _ => false
  end.

(** No version for the [semver] package. *)
Definition invalid (k : string) : Prop := Semver.parse k = None.

(** [m] is in [l] and below every other element of [l]. *)
Definition lowest (m : string) (l : list string) : Prop :=
  In m l /\ forall x, In x l -> x = m \/ Bytes.lt_string m x = true.

(** A milestone the loop of [getMilestoneId] passes over without a panic:
    the title is set and does not match, or it matches and the state is set
    and closed. *)
Definition skipped (m : Milestone.t) : bool :=
  match Milestone.Title m with
  | Some title =>
      if MatchString version_title title then
        match Milestone.State m with
        | Some state => Strings.EqualFold state "closed"
        | None => false
        end
      else true
  | None => false
  end.

(** The loop of [getLinkedIssue] goes past the token [s] at position [i]
    of [L]: [s] is no keyword, or the token after it is there and is no
    issue token. *)
Definition passed_over (L : list string) (i : nat) (s : string) : Prop :=
  MatchString keywords s = true ->
  exists next, L !! (i + 1)%nat = Some next /\ MatchString issue next = false.

(** ** The words of a pattern

    For a pattern without anchors and without [+], whose classes list single
    bytes, the strings it matches can be listed. *)

Fixpoint words (r : regex) : list string :=
  match r with
  | Empty => [""]
  | Lit c => [String c ""]
  | Class ranges => map (fun p => String (fst p) "") ranges
  | Cat r1 r2 => flat_map (fun u => map (String.append u) (words r2)) (words r1)
  | Alt r1 r2 => words r1 ++ words r2
  | Quest r1 => words r1 ++ [""]
  | BeginText | EndText | Plus _ => []
  end.

Fixpoint plain (r : regex) : bool :=
  match r with
  | Empty | Lit _ => true
  | Class ranges => forallb (fun p => Ascii.eqb (fst p) (snd p)) ranges
  | Cat r1 r2 | Alt r1 r2 => plain r1 && plain r2
  | Quest r1 => plain r1
  | BeginText | EndText | Plus _ => false
  end.

(** The three alternatives of [keywords] without their anchors. *)
Definition fix_body : list regex :=
  [either "f" "F"; lits "ix"; Quest (Lit "e"); Quest (Lit "s"); Quest (Lit "d")].
Definition close_body : list regex :=
  [either "c" "C"; lits "lose"; Quest (Lit "s"); Quest (Lit "d")].
Definition resolve_body : list regex :=
  [either "r" "R"; lits "esolve"; Quest (Lit "s"); Quest (Lit "d")].

Definition fix_words : list string :=
  ["fixesd"; "fixes"; "fixed"; "fixe"; "fixsd"; "fixs"; "fixd"; "fix";
   "Fixesd"; "Fixes"; "Fixed"; "Fixe"; "Fixsd"; "Fixs"; "Fixd"; "Fix"].
Definition close_words : list string :=
  ["closesd"; "closes"; "closed"; "close";
   "Closesd"; "Closes"; "Closed"; "Close"].
Definition resolve_words : list string :=
  ["resolvesd"; "resolves"; "resolved"; "resolve";
   "Resolvesd"; "Resolves"; "Resolved"; "Resolve"].

(** ** Predicates for the further properties *)

(** The text begins with a match of the version pattern: v, a digit, a
    dot, one or more digits, a dot, a digit. *)
Definition begins_with_version (t : string) : Prop :=
  exists d1 d2 ds d3 rest,
    t = String "v" (String d1 (String "." (String d2
          (ds ++ String "." (String d3 rest))%string))) /\
    Bytes.is_digit d1 = true /\ Bytes.is_digit d2 = true /\
    Bytes.all_bytes Bytes.is_digit ds = true /\ Bytes.is_digit d3 = true.

(** The three fields of the milestone that the loop of [getMilestoneId]
    dereferences are set. *)
Definition complete (m : Milestone.t) : bool :=
  match Milestone.Title m, Milestone.State m, Milestone.Number m with
  | Some _, Some _, Some _ => true
  | _, _, _ => false
  end.

(** The key the loop stores the milestone under: its title without the
    first byte. *)
Definition key_of (m : Milestone.t) : option string :=
  match Milestone.Title m with
  | Some title => Bytes.slice_from 1 title
  | None => None
  end.

(** The world once [log.Printf] has printed [text]. *)
Definition logged (text : string) (w : World) : World :=
  {| milestones := milestones w; issues := issues w; faults := faults w;
     calls := calls w; output := output w ++ [Printf text] |}.

(** The loop of [getLinkedIssue] gets through the whole body of [iss]
    without returning. *)
Definition no_pair (iss : Issue.t) : Prop :=
  match Issue.Body iss with
  | None => True
  | Some body =>
      forall j s, Strings.Split body " " !! j = Some s ->
                  passed_over (Strings.Split body " ") j s
  end.

(** The body of [iss] makes the loop of [getLinkedIssue] return [id]: the
    first keyword that is followed by an issue token is followed by the
    token that [Atoi] turns into [id]. *)
Definition links (iss : Issue.t) (id : Z) : Prop :=
  exists body pre post k next digits,
    Issue.Body iss = Some body /\
    Strings.Split body " " = pre ++ k :: next :: post /\
    MatchString keywords k = true /\
    MatchString issue next = true /\
    Bytes.slice_from 1 next = Some digits /\
    (forall j s, pre !! j = Some s -> passed_over (pre ++ k :: next :: post) j s) /\
    id = fst (Strconv.Atoi digits).

(** An edit that [run] may send: an issue of the configured repository, to
    the number of a milestone of [w] that is an open version. *)
Definition allowed_edit (env : Env) (w : World) (c : call) : Prop :=
  exists owner repo rest id n m,
    Strings.Split (github_repository env) "/" = owner :: repo :: rest /\
    c = EditCall owner repo id n /\
    In m (milestones w) /\ is_open_version m = true /\
    Milestone.Number m = Some n.

(** ** The end-to-end scenario *)

Module Scenario.

(** Pull request 10, closed, on no milestone, closing issue 7, which is
    closed and on no milestone; the open milestones v0.9.0 and v1.0.0 with
    the numbers [a] and [b]. *)
Definition world (a b : Z) : World :=
  Fixtures.tracker
    [Fixtures.open_milestone "v0.9.0" a; Fixtures.open_milestone "v1.0.0" b]
    [(10, Fixtures.record (Some "Closes #7") "closed" None);
     (7, Fixtures.record (Some "The build is red") "closed" None)]
    [].

Definition env : Env := Fixtures.env "octo/demo" "10".

End Scenario.

(** * Properties *)

(** ** Configuration *)

Lemma Split_non_empty (s : string) (sep : ascii) : Strings.Split s sep <> [].
Proof.
  destruct s as [|c s]; cbn [Strings.Split]; [discriminate|].
  destruct (Ascii.eqb c sep); [discriminate|].
  destruct (Strings.Split s sep); discriminate.
Qed.

Lemma Split_without_separator (s : string) :
  has_slash s = false -> Strings.Split s "/" = [s].
Proof.
  unfold has_slash.
  induction s as [|c s IH];
    cbn [list_ascii_of_string existsb Strings.Split]; [reflexivity|].
  intros H. apply orb_false_iff in H as [Hc Hs].
  rewrite Ascii.eqb_sym, Hc, (IH Hs). reflexivity.
Qed.

Lemma Split_with_separator (s : string) :
  has_slash s = true -> (1 < length (Strings.Split s "/"))%nat.
Proof.
  unfold has_slash.
  induction s as [|c s IH];
    cbn [list_ascii_of_string existsb Strings.Split]; [discriminate|].
  intros H. rewrite Ascii.eqb_sym in H.
  destruct (Ascii.eqb c "/") eqn:Hc.
  - pose proof (Split_non_empty s "/").
    destruct (Strings.Split s "/"); [congruence | cbn [length]; lia].
  - cbn [orb] in H. specialize (IH H).
    destruct (Strings.Split s "/"); cbn [length] in *; lia.
Qed.

(** C10: when [github_repository] holds no slash, [run] panics on the
    index [1] of the one-element split, before the pull-request number is
    parsed and before any request is sent: the world is returned as it was,
    and the process ends with the status of a panic, not with an error. *)
Theorem run_without_slash_panics (env : Env) (w : World) :
  has_slash (github_repository env) = false ->
  run env w = (Panic (IndexOutOfRange 1 1), w) /\
  main env w = (2, w).
Proof.
  intros H.
  assert (Hrun : run env w = (Panic (IndexOutOfRange 1 1), w)).
  { unfold run, bind, index.
    rewrite (Split_without_separator _ H). reflexivity. }
  split; [exact Hrun|].
  unfold main. rewrite Hrun. reflexivity.
Qed.

Lemma run_without_slash_panics_witness :
  has_slash (github_repository (Fixtures.env "octo-demo" "10")) = false /\
  run (Fixtures.env "octo-demo" "10") (Fixtures.tracker [] [] [])
  = (Panic (IndexOutOfRange 1 1), Fixtures.tracker [] [] []).
Proof.
  split; [reflexivity|].
  apply (run_without_slash_panics (Fixtures.env "octo-demo" "10")
           (Fixtures.tracker [] [] [])).
  reflexivity.
Defined.

(** ** The order [Semver.Sort] sorts by *)

Section ByteOrder.

Import Bytes.

Lemma code_inj (a b : ascii) : code a = code b -> a = b.
Proof.
  unfold code. intros H.
  rewrite <- (ascii_N_embedding a), <- (ascii_N_embedding b), H. reflexivity.
Qed.

Lemma lt_string_irrefl (x : string) : lt_string x x = false.
Proof.
  induction x as [|a x IH]; simpl; [reflexivity|].
  rewrite N.ltb_irrefl. exact IH.
Qed.

Lemma lt_string_trans (x y z : string) :
  lt_string x y = true -> lt_string y z = true -> lt_string x z = true.
Proof.
  revert y z. induction x as [|a x IH]; intros [|b y] [|c z]; simpl;
    try discriminate; try reflexivity.
  destruct (N.ltb_spec (code a) (code b)), (N.ltb_spec (code b) (code a)),
    (N.ltb_spec (code b) (code c)), (N.ltb_spec (code c) (code b)),
    (N.ltb_spec (code a) (code c)), (N.ltb_spec (code c) (code a));
    try discriminate; try reflexivity; try lia.
  apply IH.
Qed.

Lemma lt_string_total (x y : string) :
  x = y \/ lt_string x y = true \/ lt_string y x = true.
Proof.
  revert y. induction x as [|a x IH]; intros [|b y]; simpl; auto.
  destruct (N.ltb_spec (code a) (code b)), (N.ltb_spec (code b) (code a));
    auto; try lia.
  assert (a = b) by (apply code_inj; lia). subst b.
  destruct (IH y) as [->|[H1|H1]]; auto.
Qed.

End ByteOrder.

(** A string that does not begin with v is no version. *)
Lemma parse_needs_v (k : string) :
  (forall rest, k <> String "v" rest) -> Semver.parse k = None.
Proof.
  intros H. destruct k as [|c rest]; [reflexivity|].
  destruct (Ascii.eqb_spec c "v") as [->|Hc]; [exfalso; eapply H; reflexivity|].
  unfold Semver.parse.
  destruct c as [[] [] [] [] [] [] [] []]; try reflexivity.
  exfalso. apply Hc. reflexivity.
Qed.

(** Between two strings that are no versions [Less] is the byte order. *)
Lemma Less_between_invalid (v w : string) :
  Semver.parse v = None -> Semver.parse w = None ->
  Semver.Less v w = Bytes.lt_string v w.
Proof.
  intros Hv Hw. unfold Semver.Less, Semver.Compare. rewrite Hv, Hw. reflexivity.
Qed.

Lemma insert_sorted_In (v x : string) (l : list string) :
  In x (Semver.insert_sorted v l) <-> x = v \/ In x l.
Proof.
  induction l as [|w l IH]; simpl; [intuition|].
  destruct (Semver.Less w v); simpl; [rewrite IH|]; intuition.
Qed.

Lemma Sort_In (x : string) (l : list string) : In x (Semver.Sort l) <-> In x l.
Proof.
  induction l as [|v l IH]; simpl; [reflexivity|].
  rewrite insert_sorted_In, IH. intuition.
Qed.

Lemma insert_sorted_head (v : string) (l : list string) :
  head (Semver.insert_sorted v l)
  = match head l with
    | Some w => if Semver.Less w v then Some w else Some v
    | None => Some v
    end.
Proof. destruct l as [|w l]; simpl; [reflexivity|]. destruct (Semver.Less w v); reflexivity. Qed.

(** The first element of the sorted slice is the lowest key in byte order,
    whatever the order the keys came in, when no key is a version. *)
Lemma Sort_head_lowest (l : list string) :
  Forall invalid l -> l <> [] ->
  exists m, head (Semver.Sort l) = Some m /\ lowest m l.
Proof.
  induction l as [|v l IH]; intros Hinv Hne; [congruence|].
  apply Forall_cons in Hinv as [Hv Hl].
  simpl. rewrite insert_sorted_head.
  destruct l as [|u l'].
  - simpl. exists v. split; [reflexivity|]. split; [left; reflexivity|].
    intros x [->|[]]. left. reflexivity.
  - destruct (IH Hl ltac:(discriminate)) as (m & Hm & Hin & Hlow).
    rewrite Hm.
    assert (Hmi : invalid m).
    { rewrite Forall_forall in Hl. apply Hl. apply list_elem_of_In. exact Hin. }
    rewrite (Less_between_invalid m v Hmi Hv).
    destruct (Bytes.lt_string m v) eqn:Hlt.
    + exists m. split; [reflexivity|]. split; [right; exact Hin|].
      intros x [<-|Hx]; [right; exact Hlt | apply Hlow, Hx].
    + exists v. split; [reflexivity|]. split; [left; reflexivity|].
      intros x [<-|Hx]; [left; reflexivity|].
      destruct (lt_string_total v m) as [->|[Hvm|Hmv]].
      * apply Hlow, Hx.
      * destruct (Hlow x Hx) as [->|Hmx]; right;
          [exact Hvm | exact (lt_string_trans v m x Hvm Hmx)].
      * congruence.
Qed.

(** X4: the order in which the map hands out its keys does not matter: two
    slices with the same keys, none of them a version, have the same first
    element once sorted. *)
Lemma Sort_head_order_independent (l1 l2 : list string) :
  Forall invalid l1 -> l1 <> [] -> (forall x, In x l1 <-> In x l2) ->
  head (Semver.Sort l1) = head (Semver.Sort l2).
Proof.
  intros H1 Hne Heq.
  assert (H2 : Forall invalid l2).
  { rewrite Forall_forall in *. intros x Hx. apply H1.
    apply list_elem_of_In, Heq, list_elem_of_In, Hx. }
  assert (Hne2 : l2 <> []).
  { destruct l1 as [|a l1]; [congruence|]. intros ->.
    apply (proj1 (Heq a)). left. reflexivity. }
  destruct (Sort_head_lowest l1 H1 Hne) as (m1 & E1 & I1 & L1).
  destruct (Sort_head_lowest l2 H2 Hne2) as (m2 & E2 & I2 & L2).
  rewrite E1, E2. f_equal.
  destruct (L1 m2 (proj2 (Heq m2) I2)) as [->|A]; [reflexivity|].
  destruct (L2 m1 (proj1 (Heq m1) I1)) as [->|B]; [reflexivity|].
  pose proof (lt_string_trans _ _ _ A B) as C.
  rewrite lt_string_irrefl in C. discriminate.
Qed.

Lemma Sort_head_order_independent_witness :
  head (Semver.Sort ["1.2.0"; "1.10.0"; "2.0.0"])
  = head (Semver.Sort ["2.0.0"; "1.10.0"; "1.2.0"; "1.10.0"]).
Proof.
  apply Sort_head_order_independent.
  - repeat constructor.
  - discriminate.
  - intros x. cbn [In]. tauto.
Defined.

(** ** Patterns *)

Lemma matches_at_true (r : regex) (s : string) (i : nat) :
  matches_at r s i = true <-> Regexp.run r (i, Bytes.drop_bytes i s) <> [].
Proof.
  unfold matches_at. destruct (Regexp.run r (i, Bytes.drop_bytes i s));
    split; congruence.
Qed.

Lemma MatchString_true (r : regex) (s : string) :
  MatchString r s = true <->
  exists i, (i <= String.length s)%nat /\ Regexp.run r (i, Bytes.drop_bytes i s) <> [].
Proof.
  unfold MatchString. rewrite existsb_exists. split.
  - intros (i & Hi & Hm). exists i. rewrite in_seq in Hi.
    split; [lia | apply matches_at_true, Hm].
  - intros (i & Hi & Hm). exists i. rewrite in_seq.
    split; [lia | apply matches_at_true, Hm].
Qed.

Lemma rounds_non_empty (fuel : nat) (f : cursor -> list cursor) (c : cursor) :
  rounds fuel f c <> [].
Proof. destruct fuel; discriminate. Qed.

Lemma in_digit_class (d : ascii) : in_class [("0", "9")]%char d = Bytes.is_digit d.
Proof. unfold in_class. simpl. apply orb_false_r. Qed.

Lemma run_issue (i : nat) (t : string) :
  Regexp.run issue (i, t) <> [] <->
  i = 0%nat /\
  exists d rest, t = String "#" (String d rest) /\ Bytes.is_digit d = true.
Proof.
  unfold issue, cat, digit.
  cbn [Regexp.run fst snd flat_map].
  destruct i as [|i].
  2:{ cbn. split; [congruence | intros [? _]; discriminate]. }
  cbn [flat_map app]. rewrite app_nil_r.
  destruct t as [|c t]; cbn [Regexp.run fst snd flat_map].
  { split; [congruence | intros (_ & d & rest & H & _); discriminate]. }
  destruct (Ascii.eqb_spec "#" c) as [<-|Hc].
  2:{ cbn. split; [congruence | intros (_ & d & rest & [= H _] & _); congruence]. }
  cbn [flat_map app]. rewrite app_nil_r.
  destruct t as [|d t]; cbn [Regexp.run fst snd flat_map].
  { split; [congruence | intros (_ & d & rest & H & _); discriminate]. }
  rewrite in_digit_class.
  destruct (Bytes.is_digit d) eqn:Hd.
  - cbn [flat_map app]. rewrite app_nil_r. split.
    + intros _. split; [reflexivity|]. eauto.
    + intros _. apply rounds_non_empty.
  - cbn. split; [congruence|]. intros (_ & d' & rest & [= <- _] & H). congruence.
Qed.

(** X7: the issue pattern accepts exactly the tokens that begin with a hash
    sign and a digit; what follows the first digit is not looked at. *)
Lemma issue_matches (s : string) :
  MatchString issue s = true <->
  exists d rest, s = String "#" (String d rest) /\ Bytes.is_digit d = true.
Proof.
  rewrite MatchString_true. split.
  - intros (i & _ & H). apply run_issue in H as [-> H]. exact H.
  - intros H. exists 0%nat. split; [lia|]. apply run_issue. split; [reflexivity|exact H].
Qed.

(** *** The keyword pattern *)

Lemma append_assoc (a b c : string) : ((a ++ b) ++ c = a ++ (b ++ c))%string.
Proof.
  induction a as [|x a IH]; [reflexivity|].
  change (String x ((a ++ b) ++ c) = String x (a ++ (b ++ c)))%string.
  rewrite IH. reflexivity.
Qed.

Lemma length_append (a b : string) :
  String.length (a ++ b)%string = (String.length a + String.length b)%nat.
Proof.
  induction a as [|x a IH]; [reflexivity|].
  change (S (String.length (a ++ b)%string)
          = S (String.length a + String.length b)).
  rewrite IH. reflexivity.
Qed.

Lemma between_same (a b : ascii) : Bytes.between a a b = true <-> a = b.
Proof.
  unfold Bytes.between. rewrite andb_true_iff, !N.leb_le. split.
  - intros [H1 H2]. apply code_inj. lia.
  - intros ->. lia.
Qed.

Lemma in_class_plain (ranges : list (ascii * ascii)) (b : ascii) :
  forallb (fun p => Ascii.eqb (fst p) (snd p)) ranges = true ->
  in_class ranges b = true <-> In b (map fst ranges).
Proof.
  intros H. unfold in_class. rewrite existsb_exists, in_map_iff.
  rewrite forallb_forall in H. split.
  - intros ([lo hi] & Hin & Hb). specialize (H _ Hin). simpl in *.
    apply Ascii.eqb_eq in H. subst hi. apply between_same in Hb.
    exists (lo, lo). split; [exact Hb | exact Hin].
  - intros ([lo hi] & <- & Hin). specialize (H _ Hin). simpl in *.
    apply Ascii.eqb_eq in H. subst hi. exists (lo, lo).
    split; [exact Hin | apply between_same; reflexivity].
Qed.

(** [String.append] on a prefix that is known. *)
Ltac append_in H := cbv beta iota fix delta [String.append] in H.
Ltac append_goal := cbv beta iota fix delta [String.append].

Lemma run_words (r : regex) :
  plain r = true ->
  forall i t j rest,
    In (j, rest) (Regexp.run r (i, t)) <->
    exists u, In u (words r) /\ t = (u ++ rest)%string /\ j = (i + String.length u)%nat.
Proof.
  induction r as [| c | ranges | | | r1 IH1 r2 IH2 | r1 IH1 r2 IH2 | r1 IH1 | r1 IH1];
    simpl; intros Hp i t j rest; try discriminate.
  - split.
    + intros [[= <- <-]|[]]. exists "". split; [left; reflexivity|].
      split; [reflexivity | simpl; lia].
    + intros (u & [<-|[]] & -> & ->). left. append_goal. simpl. f_equal. lia.
  - destruct t as [|b t].
    + split; [intros [] | intros (u & [<-|[]] & H & _); discriminate].
    + destruct (Ascii.eqb_spec c b) as [<-|Hne].
      * split.
        -- intros [[= <- <-]|[]]. exists (String c ""). split; [left; reflexivity|].
           split; [reflexivity | simpl; lia].
        -- intros (u & [<-|[]] & H & ->). append_in H. injection H as ->.
           left. f_equal. simpl. lia.
      * split; [intros [] | intros (u & [<-|[]] & H & _)].
        append_in H. injection H as H _. congruence.
  - destruct t as [|b t].
    + split; [intros []|]. intros (u & Hu & H & _).
      apply in_map_iff in Hu as (p & <- & _). discriminate.
    + destruct (in_class ranges b) eqn:Hc.
      * apply (in_class_plain _ _ Hp) in Hc. split.
        -- intros [[= <- <-]|[]]. exists (String b ""). split.
           ++ apply in_map_iff in Hc as (p & <- & Hin). apply in_map_iff. eauto.
           ++ split; [reflexivity | simpl; lia].
        -- intros (u & Hu & H & ->). apply in_map_iff in Hu as (p & <- & Hin).
           append_in H. injection H as _ ->. left. f_equal. simpl. lia.
      * split; [intros []|]. intros (u & Hu & H & _).
        apply in_map_iff in Hu as (p & <- & Hin). append_in H. injection H as -> _.
        assert (in_class ranges (fst p) = true).
        { apply (in_class_plain _ _ Hp). apply in_map_iff. eauto. }
        congruence.
  - apply andb_true_iff in Hp as [Hp1 Hp2]. rewrite in_flat_map. split.
    + intros ([k mid] & H1 & H2).
      apply (IH1 Hp1) in H1 as (u1 & Hu1 & -> & ->).
      apply (IH2 Hp2) in H2 as (u2 & Hu2 & -> & ->).
      exists (u1 ++ u2)%string. split.
      * apply in_flat_map. exists u1. split; [exact Hu1|]. apply in_map. exact Hu2.
      * rewrite append_assoc, length_append. split; [reflexivity | lia].
    + intros (u & Hu & -> & ->). apply in_flat_map in Hu as (u1 & Hu1 & Hu).
      apply in_map_iff in Hu as (u2 & <- & Hu2).
      exists ((i + String.length u1)%nat, (u2 ++ rest)%string). split.
      * apply (IH1 Hp1). exists u1. rewrite append_assoc. auto.
      * apply (IH2 Hp2). exists u2. rewrite length_append.
        split; [exact Hu2|]. split; [reflexivity | lia].
  - apply andb_true_iff in Hp as [Hp1 Hp2].
    rewrite in_app_iff, (IH1 Hp1), (IH2 Hp2). split.
    + intros [(u & Hu & H)|(u & Hu & H)]; exists u; rewrite in_app_iff; auto.
    + intros (u & Hu & H). apply in_app_iff in Hu as [Hu|Hu]; [left | right]; eauto.
  - rewrite in_app_iff, (IH1 Hp). split.
    + intros [(u & Hu & H)|[[= <- <-]|[]]].
      * exists u. rewrite in_app_iff. auto.
      * exists "". rewrite in_app_iff. split; [right; left; reflexivity|].
        split; [reflexivity | simpl; lia].
    + intros (u & Hu & H). apply in_app_iff in Hu as [Hu|[<-|[]]].
      * left. eauto.
      * right. left. destruct H as [-> ->]. append_goal. simpl. f_equal. lia.
Qed.

Lemma flat_map_flat_map {A B C} (f : B -> list C) (g : A -> list B) (l : list A) :
  flat_map f (flat_map g l) = flat_map (fun x => flat_map f (g x)) l.
Proof.
  induction l as [|a l IH]; simpl; [reflexivity|].
  rewrite flat_map_app, IH. reflexivity.
Qed.

Lemma run_Cat_assoc (a b c : regex) (x : cursor) :
  Regexp.run (Cat (Cat a b) c) x = Regexp.run (Cat a (Cat b c)) x.
Proof. simpl. apply flat_map_flat_map. Qed.

Lemma run_cat_snoc (rs : list regex) (e : regex) (x : cursor) :
  rs <> [] -> Regexp.run (cat (rs ++ [e])) x = Regexp.run (Cat (cat rs) e) x.
Proof.
  revert x. induction rs as [|r rs IH]; intros x Hne; [congruence|].
  destruct rs as [|r' rs]; [reflexivity|].
  change (cat ((r :: r' :: rs) ++ [e])) with (Cat r (cat ((r' :: rs) ++ [e]))).
  change (cat (r :: r' :: rs)) with (Cat r (cat (r' :: rs))).
  rewrite run_Cat_assoc.
  change (Regexp.run (Cat r ?q) x) with (flat_map (Regexp.run q) (Regexp.run r x)).
  apply flat_map_ext. intros y. apply IH. discriminate.
Qed.

Lemma append_nil_r (s : string) : (s ++ "")%string = s.
Proof.
  induction s as [|c s IH]; [reflexivity|].
  change (String c (s ++ "")%string = String c s). rewrite IH. reflexivity.
Qed.

Lemma run_to_end (r : regex) (i : nat) (t : string) :
  plain r = true ->
  Regexp.run (Cat r EndText) (i, t) <> [] <-> In t (words r).
Proof.
  intros Hp. split.
  - intros H. destruct (Regexp.run (Cat r EndText) (i, t)) as [|[j rest] l] eqn:E;
      [congruence|].
    assert (Hin : In (j, rest) (Regexp.run (Cat r EndText) (i, t)))
      by (rewrite E; left; reflexivity).
    simpl in Hin. apply in_flat_map in Hin as ([k mid] & H1 & H2).
    apply (run_words r Hp) in H1 as (u & Hu & -> & _).
    simpl in H2. destruct mid; [|destruct H2].
    rewrite append_nil_r. exact Hu.
  - intros Hu H.
    assert (Hin : In ((i + String.length t)%nat, "") (Regexp.run (Cat r EndText) (i, t))).
    { simpl. apply in_flat_map. exists ((i + String.length t)%nat, "").
      split; [|left; reflexivity].
      apply (run_words r Hp). exists t. rewrite append_nil_r. auto. }
    rewrite H in Hin. destruct Hin.
Qed.

Lemma drop_bytes_suffix (s u : string) :
  (exists i, (i <= String.length s)%nat /\ Bytes.drop_bytes i s = u) <->
  exists p, s = (p ++ u)%string.
Proof.
  split.
  - intros (i & Hi & <-). revert s Hi. induction i as [|i IH]; intros s Hi.
    + exists "". reflexivity.
    + destruct s as [|c s]; [simpl in Hi; lia|].
      destruct (IH s ltac:(simpl in Hi; lia)) as (p & Hp).
      exists (String c p). simpl Bytes.drop_bytes.
      change (String c s = String c (p ++ Bytes.drop_bytes i s)%string).
      rewrite <- Hp. reflexivity.
  - intros (p & ->). exists (String.length p). split.
    + rewrite length_append. lia.
    + induction p as [|c p IH]; [reflexivity | exact IH].
Qed.

Lemma app_non_nil {A} (l1 l2 : list A) : l1 ++ l2 <> [] <-> l1 <> [] \/ l2 <> [].
Proof.
  destruct l1 as [|a l1]; simpl.
  - split; [intros H; right; exact H | intros [H|H]; [congruence | exact H]].
  - split; [intros _; left; discriminate | intros _; discriminate].
Qed.

Lemma run_keywords (i : nat) (t : string) :
  Regexp.run keywords (i, t) <> [] <->
  (i = 0%nat /\ In t fix_words) \/ In t close_words \/ In t resolve_words.
Proof.
  change keywords with
    (Alt (Cat BeginText (cat (fix_body ++ [EndText])))
         (Alt (cat (close_body ++ [EndText])) (cat (resolve_body ++ [EndText])))).
  change (Regexp.run (Alt ?a (Alt ?b ?c)) ?x)
    with (Regexp.run a x ++ (Regexp.run b x ++ Regexp.run c x)).
  rewrite !app_non_nil.
  rewrite (run_cat_snoc close_body EndText (i, t)) by discriminate.
  rewrite (run_cat_snoc resolve_body EndText (i, t)) by discriminate.
  rewrite (run_to_end (cat close_body) i t eq_refl).
  rewrite (run_to_end (cat resolve_body) i t eq_refl).
  change (words (cat close_body)) with close_words.
  change (words (cat resolve_body)) with resolve_words.
  assert (H1 : Regexp.run (Cat BeginText (cat (fix_body ++ [EndText]))) (i, t) <> []
               <-> i = 0%nat /\ In t fix_words).
  { destruct i as [|i].
    - change (Regexp.run (Cat BeginText ?q) (0%nat, t))
        with (Regexp.run q (0%nat, t) ++ []).
      rewrite app_nil_r, (run_cat_snoc fix_body EndText (0%nat, t)) by discriminate.
      rewrite (run_to_end (cat fix_body) 0 t eq_refl).
      change (words (cat fix_body)) with fix_words. tauto.
    - change (Regexp.run (Cat BeginText ?q) (S i, t)) with (@nil cursor).
      split; [congruence | intros [? _]; discriminate]. }
  rewrite H1. reflexivity.
Qed.

(** X6: the keyword pattern accepts fix with any of e, s, d after it in
    that order, and every token that ends in close or resolve with any of
    s, d after it in that order; the first letter of the word may be a
    capital. *)
Theorem keywords_language (s : string) :
  MatchString keywords s = true <->
  In s fix_words \/
  exists p u, s = (p ++ u)%string /\ (In u close_words \/ In u resolve_words).
Proof.
  rewrite MatchString_true. split.
  - intros (i & Hi & H). apply run_keywords in H as [[-> H]|H].
    + left. exact H.
    + right. destruct (proj1 (drop_bytes_suffix s (Bytes.drop_bytes i s))) as (p & Hp);
        [eauto|]. eauto.
  - intros [H|(p & u & -> & H)].
    + exists 0%nat. split; [lia|]. apply run_keywords. left. auto.
    + destruct (proj2 (drop_bytes_suffix (p ++ u)%string u)) as (i & Hi & Hd); [eauto|].
      exists i. split; [exact Hi|]. rewrite Hd. apply run_keywords. right. exact H.
Qed.

(** C6: the nine words of the family match in both spellings, and so do
    tokens outside it: a token that only ends in a word of the close or the
    resolve family, and fix followed by any of e, s, d in that order. *)
Theorem keywords_matches_outside_the_family :
  forallb (MatchString keywords)
    ["fix"; "fixes"; "fixed"; "close"; "closes"; "closed";
     "resolve"; "resolves"; "resolved";
     "Fix"; "Fixes"; "Fixed"; "Close"; "Closes"; "Closed";
     "Resolve"; "Resolves"; "Resolved"] = true /\
  MatchString keywords "unresolved" = true /\
  MatchString keywords "disclose" = true /\
  MatchString keywords "fixe" = true /\
  MatchString keywords "fixsd" = true /\
  MatchString keywords "prefix" = false /\
  fst (getLinkedIssue (Fixtures.pull 10)
         (Fixtures.tracker []
            [(10, Fixtures.record (Some "Still unresolved #5") "closed" None)] []))
  = Done (Some 5, None).
Proof. repeat split; vm_compute; reflexivity. Qed.

(** ** The resolver *)

(** Reduces the matches that a case split has decided, and nothing else. *)
Ltac reduce_in H := cbv beta iota delta [fst snd negb] in H.

Lemma request_planned (c : call) (w : World) :
  Client.request c w = (Done (planned w 0), sent c w).
Proof.
  unfold Client.request, planned, sent.
  destruct (faults w) as [|f fs]; reflexivity.
Qed.

(** The loop that fills the map neither reads nor changes the world. *)
Lemma collect_pure (l : list Milestone.t) (acc : gmap string Z) (w w' : World) :
  snd (collect l acc w) = w /\ fst (collect l acc w) = fst (collect l acc w').
Proof.
  revert acc. induction l as [|m l IH]; intros acc; simpl; [split; reflexivity|].
  unfold bind, deref, slice, ret, throw.
  destruct (Milestone.Title m) as [title|]; [|split; reflexivity].
  destruct (MatchString version_title title); [|apply IH].
  destruct (Milestone.State m) as [state|]; [|split; reflexivity].
  destruct (negb (Strings.EqualFold state "closed")); [|apply IH].
  destruct (Bytes.slice_from 1 title) as [key|]; [|split; reflexivity].
  destruct (Milestone.Number m) as [number|]; [|split; reflexivity].
  apply IH.
Qed.

(** Every entry of the map comes from a milestone whose title matches the
    version pattern and whose state is not closed: its key is that title
    without its first byte and its value that milestone's number. *)
Lemma collect_sound (l : list Milestone.t) (acc table : gmap string Z) (w : World)
  (k : string) (n : Z) :
  fst (collect l acc w) = Done table ->
  table !! k = Some n ->
  acc !! k = Some n \/
  exists m title, In m l /\ is_open_version m = true /\
    Milestone.Title m = Some title /\ Bytes.slice_from 1 title = Some k /\
    Milestone.Number m = Some n.
Proof.
  revert acc. induction l as [|m l IH]; intros acc; simpl.
  - intros [= ->] H. left. exact H.
  - unfold bind, deref, slice, ret, throw. intros Hc Hk.
    assert (Hrest : forall acc', fst (collect l acc' w) = Done table ->
              acc' = acc ->
              acc !! k = Some n \/
              exists m0 title, In m0 (m :: l) /\ is_open_version m0 = true /\
                Milestone.Title m0 = Some title /\
                Bytes.slice_from 1 title = Some k /\
                Milestone.Number m0 = Some n).
    { intros acc' H ->. destruct (IH acc H Hk) as [A|(m0 & t & I & B)];
        [left; exact A | right; exists m0, t; split; [right; exact I | exact B]]. }
    destruct (Milestone.Title m) as [title|] eqn:Ht;
      reduce_in Hc; [|discriminate].
    destruct (MatchString version_title title) eqn:Hm; [|eapply Hrest; eauto].
    destruct (Milestone.State m) as [state|] eqn:Hs;
      reduce_in Hc; [|discriminate].
    destruct (Strings.EqualFold state "closed") eqn:He; reduce_in Hc;
      [eapply Hrest; eauto|].
    destruct (Bytes.slice_from 1 title) as [key|] eqn:Hkey;
      reduce_in Hc; [|discriminate].
    destruct (Milestone.Number m) as [number|] eqn:Hn;
      reduce_in Hc; [|discriminate].
    destruct (IH _ Hc Hk) as [A|(m0 & t & I & B)].
    + destruct (decide (key = k)) as [->|Hne].
      * rewrite lookup_insert_eq in A. injection A as <-.
        right. exists m, title. split; [left; reflexivity|].
        unfold is_open_version. rewrite Ht, Hm, Hs, He. auto.
      * rewrite lookup_insert_ne in A by exact Hne. left. exact A.
    + right. exists m0, t. split; [right; exact I | exact B].
Qed.

(** When the list request succeeds and the loop leaves a map that is not
    empty and holds no key that is a version, [getMilestoneId] returns the
    number stored under the key that is lowest in byte order. *)
Theorem getMilestoneId_returns_lowest_key
  (g : GitHubIssue) (w : World) (table : gmap string Z) :
  planned w 0 = None ->
  fst (collect (milestones w) ∅ w) = Done table ->
  table <> ∅ ->
  (forall k, is_Some (table !! k) -> invalid k) ->
  exists k n,
    table !! k = Some n /\
    (forall k', is_Some (table !! k') -> k' = k \/ Bytes.lt_string k k' = true) /\
    fst (getMilestoneId g w) = Done (Some n, None).
Proof.
  intros Hp Hc Hne Hinv.
  assert (Hkeys : forall x, In x (keys table) <-> is_Some (table !! x)).
  { intros x. unfold keys. rewrite <- list_elem_of_In, list_elem_of_fmap. split.
    - intros ([k' n'] & -> & H). apply elem_of_map_to_list in H. eauto.
    - intros [n' H]. exists (x, n'). split; [reflexivity|].
      apply elem_of_map_to_list. exact H. }
  assert (Hsize : size table <> 0%nat).
  { intros H. apply map_size_empty_iff in H. contradiction. }
  assert (Hnonempty : keys table <> []).
  { unfold keys. intros H. apply fmap_nil_inv in H.
    apply map_to_list_empty_iff in H. contradiction. }
  assert (Hall : Forall invalid (keys table)).
  { rewrite Forall_forall. intros x Hx. apply Hinv, Hkeys, list_elem_of_In, Hx. }
  destruct (Sort_head_lowest (keys table) Hall Hnonempty) as (m & Hm & Hin & Hlow).
  apply Hkeys in Hin as Hsome. destruct Hsome as [n Hn].
  exists m, n. split; [exact Hn|]. split.
  { intros k' Hk'. apply Hlow, Hkeys, Hk'. }
  unfold getMilestoneId, Client.ListMilestones, bind.
  rewrite request_planned, Hp. simpl.
  destruct (collect_pure (milestones w) ∅ (sent (ListMilestonesCall (Owner g) (Repo g)) w) w)
    as [Hw Hf].
  destruct (collect (milestones w) ∅ (sent (ListMilestonesCall (Owner g) (Repo g)) w))
    as [r w1] eqn:Hcol.
  simpl in Hw, Hf. subst w1. rewrite Hc in Hf. subst r.
  apply Nat.eqb_neq in Hsize. rewrite Hsize.
  unfold index. rewrite <- head_lookup, Hm. simpl.
  rewrite Hn. reflexivity.
Qed.

(** With titles of the usual form, v followed by a digit, no key is a
    version, so the number returned is the one of the title that is lowest
    as a byte string once the v is taken off. *)
Theorem getMilestoneId_with_usual_titles
  (g : GitHubIssue) (w : World) (table : gmap string Z) :
  planned w 0 = None ->
  fst (collect (milestones w) ∅ w) = Done table ->
  table <> ∅ ->
  (forall m title, In m (milestones w) -> Milestone.Title m = Some title ->
     exists d rest, title = String "v" (String d rest) /\ Bytes.is_digit d = true) ->
  exists k n,
    table !! k = Some n /\
    (forall k', is_Some (table !! k') -> k' = k \/ Bytes.lt_string k k' = true) /\
    fst (getMilestoneId g w) = Done (Some n, None).
Proof.
  intros Hp Hc Hne Htitles.
  apply getMilestoneId_returns_lowest_key; try assumption.
  intros k [n Hk].
  destruct (collect_sound _ _ _ _ _ _ Hc Hk) as [A|(m & title & Hin & _ & Ht & Hs & _)].
  - rewrite lookup_empty in A. discriminate.
  - destruct (Htitles m title Hin Ht) as (d & rest & -> & Hd).
    simpl in Hs. injection Hs as <-.
    apply parse_needs_v. intros r [= -> _]. discriminate.
Qed.

Lemma getMilestoneId_with_usual_titles_example :
  exists k n,
    ({[ "1.2.0" := 1; "1.10.0" := 2; "2.0.0" := 3 ]} : gmap string Z) !! k = Some n /\
    (forall k', is_Some (({[ "1.2.0" := 1; "1.10.0" := 2; "2.0.0" := 3 ]}
                          : gmap string Z) !! k') ->
       k' = k \/ Bytes.lt_string k k' = true) /\
    fst (getMilestoneId (Fixtures.pull 10)
           (Fixtures.tracker
              [Fixtures.open_milestone "v1.2.0" 1;
               Fixtures.open_milestone "v1.10.0" 2;
               Fixtures.open_milestone "v2.0.0" 3] [] []))
    = Done (Some n, None).
Proof.
  apply (getMilestoneId_with_usual_titles (Fixtures.pull 10)
           (Fixtures.tracker
              [Fixtures.open_milestone "v1.2.0" 1;
               Fixtures.open_milestone "v1.10.0" 2;
               Fixtures.open_milestone "v2.0.0" 3] [] [])).
  - reflexivity.
  - vm_compute. reflexivity.
  - intros H. apply (f_equal (fun t : gmap string Z => t !! "1.2.0")) in H.
    vm_compute in H. discriminate.
  - intros m title [<-|[<-|[<-|[]]]] [= <-]; eexists _, _; split; reflexivity.
Defined.

(** C1: with the open milestones v1.2.0, v1.10.0 and v2.0.0 (numbers 1, 2
    and 3) [getMilestoneId] returns 2, the number of v1.10.0, and logs
    1.10.0 as the lowest version.  The keys of the map are the titles
    without their first byte, so none of them is a version for
    [Semver.Compare]; [Semver.Sort] then orders them as byte strings, and
    1.10.0 is below 1.2.0. *)
Theorem getMilestoneId_orders_keys_as_bytes :
  Semver.IsValid "1.2.0" = false /\
  Semver.Sort ["1.2.0"; "1.10.0"; "2.0.0"] = ["1.10.0"; "1.2.0"; "2.0.0"] /\
  getMilestoneId (Fixtures.pull 10)
    (Fixtures.tracker
       [Fixtures.open_milestone "v1.2.0" 1;
        Fixtures.open_milestone "v1.10.0" 2;
        Fixtures.open_milestone "v2.0.0" 3] [] [])
  = (Done (Some 2, None),
     {| milestones := [Fixtures.open_milestone "v1.2.0" 1;
                       Fixtures.open_milestone "v1.10.0" 2;
                       Fixtures.open_milestone "v2.0.0" 3];
        issues := ∅; faults := [];
        calls := [ListMilestonesCall "octo" "demo"];
        output := [Printf "[DEBUG] lowest open version milestone: 1.10.0"] |}).
Proof. repeat split; vm_compute; reflexivity. Qed.

(** ** The resolver without an open version milestone *)

Lemma collect_skips (l : list Milestone.t) (acc : gmap string Z) (w : World) :
  forallb skipped l = true -> collect l acc w = (Done acc, w).
Proof.
  induction l as [|m l IH]; simpl; [reflexivity|].
  intros H. apply andb_true_iff in H as [Hm Hl].
  unfold skipped in Hm. unfold bind, deref, ret.
  destruct (Milestone.Title m) as [title|]; [|discriminate].
  destruct (MatchString version_title title); [|exact (IH Hl)].
  destruct (Milestone.State m) as [state|]; [|discriminate].
  rewrite Hm. exact (IH Hl).
Qed.

(** X5: whenever the list request succeeds and every milestone it returns
    is closed or not titled as a version, the process ends with status 1,
    not 0: it sends the list request only and prints the wrapped error. *)
Theorem main_without_candidates
  (env : Env) (w : World) (owner repo : string) (rest : list string) (prId : Z) :
  Strings.Split (github_repository env) "/" = owner :: repo :: rest ->
  Strconv.Atoi (pr_number env) = (prId, None) ->
  planned w 0 = None ->
  forallb skipped (milestones w) = true ->
  main env w
  = (1,
     {| milestones := milestones w; issues := issues w;
        faults := List.tl (faults w);
        calls := calls w ++ [ListMilestonesCall owner repo];
        output := output w ++
          [Fatal (Errorf "getting milestone id: "
                    (ErrorString "no open version milestones were found"))] |}).
Proof.
  intros HS HA Hp Hskip.
  unfold main, run, bind, index. rewrite HS. simpl. rewrite HA.
  unfold getMilestoneId, Client.ListMilestones, bind.
  rewrite request_planned, Hp. simpl.
  rewrite (collect_skips _ _ _ Hskip). reflexivity.
Qed.

Lemma main_without_candidates_example :
  fst (main (Fixtures.env "octo/demo" "10")
         (Fixtures.tracker
            [Fixtures.closed_milestone "v1.0.0" 1;
             Fixtures.open_milestone "backlog" 2] [] []))
  = 1.
Proof.
  rewrite (main_without_candidates (Fixtures.env "octo/demo" "10") _
             "octo" "demo" [] 10); reflexivity.
Defined.

(** C2: with no open version milestone (one closed version milestone and
    one open milestone that is not a version) the run sends the one list
    request and no edit, [getMilestoneId] returns its error, [run] wraps and
    returns it, and [main] ends with status 1 after printing it.  The branch
    of [run] for a nil number without an error is never taken. *)
Theorem main_fails_without_open_version_milestone :
  main (Fixtures.env "octo/demo" "10")
    (Fixtures.tracker
       [Fixtures.closed_milestone "v1.0.0" 1; Fixtures.open_milestone "backlog" 2]
       [(10, Fixtures.record (Some "Closes #7") "closed" None)] [])
  = (1,
     {| milestones := [Fixtures.closed_milestone "v1.0.0" 1;
                       Fixtures.open_milestone "backlog" 2];
        issues := {[ 10 := Fixtures.record (Some "Closes #7") "closed" None ]};
        faults := [];
        calls := [ListMilestonesCall "octo" "demo"];
        output := [Fatal (Errorf "getting milestone id: "
                            (ErrorString "no open version milestones were found"))] |}).
Proof. vm_compute. reflexivity. Qed.

(** ** The extractor: the loop over the tokens *)

Lemma scan_skip (L p q : list string) (i : nat) (w : World) :
  (forall j s, p !! j = Some s -> passed_over L (i + j) s) ->
  scan L i (p ++ q) w = scan L (i + length p) q w.
Proof.
  revert i. induction p as [|s p IH]; intros i H; simpl.
  - rewrite Nat.add_0_r. reflexivity.
  - assert (Hp : forall j s', p !! j = Some s' -> passed_over L (S i + j) s').
    { intros j s' Hj. replace (S i + j)%nat with (i + S j)%nat by lia.
      apply H. exact Hj. }
    replace (i + S (length p))%nat with (S i + length p)%nat by lia.
    destruct (MatchString keywords s) eqn:Hk; [|apply IH, Hp].
    destruct (H 0%nat s eq_refl Hk) as (nx & Hnx & Hno).
    rewrite Nat.add_0_r in Hnx.
    unfold bind, index. rewrite Hnx. simpl. rewrite Hno. apply IH, Hp.
Qed.

(** When the last token is a keyword and the loop gets that far, the
    access to the token after it is out of range. *)
Lemma scan_trailing_keyword (pre : list string) (k : string) (w : World) :
  MatchString keywords k = true ->
  (forall j s, pre !! j = Some s -> passed_over (pre ++ [k]) j s) ->
  scan (pre ++ [k]) 0 (pre ++ [k]) w
  = (Panic (IndexOutOfRange (length pre + 1) (length pre + 1)), w).
Proof.
  intros Hk Hpre.
  rewrite (scan_skip (pre ++ [k]) pre [k] 0 w Hpre). simpl. rewrite Hk.
  unfold bind, index.
  rewrite lookup_ge_None_2 by (rewrite length_app; simpl; lia).
  rewrite length_app. reflexivity.
Qed.

(** The first keyword that is followed by an issue token decides: the
    bytes after the hash sign go to [Atoi], and its number is returned
    whether or not [Atoi] reported an error. *)
Lemma scan_first_pair (pre post : list string) (k next digits : string) (w : World) :
  MatchString keywords k = true ->
  MatchString issue next = true ->
  Bytes.slice_from 1 next = Some digits ->
  (forall j s, pre !! j = Some s -> passed_over (pre ++ k :: next :: post) j s) ->
  scan (pre ++ k :: next :: post) 0 (pre ++ k :: next :: post) w
  = (Done (Some (fst (Strconv.Atoi digits))), w).
Proof.
  intros Hk Hn Hd Hpre.
  rewrite (scan_skip _ pre (k :: next :: post) 0 w Hpre). simpl. rewrite Hk.
  unfold bind, index, slice.
  replace ((pre ++ k :: next :: post) !! (length pre + 1)%nat) with (Some next).
  2:{ rewrite lookup_app_r by lia.
      replace (length pre + 1 - length pre)%nat with 1%nat by lia. reflexivity. }
  cbv beta iota delta [ret]. rewrite Hn, Hd. reflexivity.
Qed.

(** X9: for a body that is split into tokens ending in a keyword, with no
    keyword before it followed by an issue token, the extractor panics. *)
Theorem getLinkedIssue_trailing_keyword
  (g : GitHubIssue) (w : World) (iss : Issue.t) (body : string)
  (pre : list string) (k : string) :
  planned w 0 = None ->
  issues w !! Id g = Some iss ->
  Issue.Body iss = Some body ->
  Strings.Split body " " = pre ++ [k] ->
  MatchString keywords k = true ->
  (forall j s, pre !! j = Some s -> passed_over (pre ++ [k]) j s) ->
  fst (getLinkedIssue g w)
  = Panic (IndexOutOfRange (length pre + 1) (length pre + 1)).
Proof.
  intros Hp Hi Hb HS Hk Hpre.
  unfold getLinkedIssue, Client.Get, bind.
  rewrite request_planned, Hp. simpl. rewrite Hi. simpl. rewrite Hb, HS.
  rewrite (scan_trailing_keyword pre k _ Hk Hpre). reflexivity.
Qed.

Lemma getLinkedIssue_trailing_keyword_example :
  fst (getLinkedIssue (Fixtures.pull 10)
         (Fixtures.tracker []
            [(10, Fixtures.record (Some "this closes") "closed" None)] []))
  = Panic (IndexOutOfRange 2 2).
Proof.
  apply (getLinkedIssue_trailing_keyword (Fixtures.pull 10) _
           (Fixtures.record (Some "this closes") "closed" None)
           "this closes" ["this"] "closes"); try reflexivity.
  intros [|[|j]] s [= <-]. intros H. vm_compute in H. discriminate.
Defined.

(** X8: for a body whose first keyword followed by an issue token is
    followed by [next], the extractor returns what [Atoi] makes of [next]
    without its first byte. *)
Theorem getLinkedIssue_first_pair
  (g : GitHubIssue) (w : World) (iss : Issue.t) (body : string)
  (pre post : list string) (k next digits : string) :
  planned w 0 = None ->
  issues w !! Id g = Some iss ->
  Issue.Body iss = Some body ->
  Strings.Split body " " = pre ++ k :: next :: post ->
  MatchString keywords k = true ->
  MatchString issue next = true ->
  Bytes.slice_from 1 next = Some digits ->
  (forall j s, pre !! j = Some s -> passed_over (pre ++ k :: next :: post) j s) ->
  fst (getLinkedIssue g w) = Done (Some (fst (Strconv.Atoi digits)), None).
Proof.
  intros Hp Hi Hb HS Hk Hn Hd Hpre.
  unfold getLinkedIssue, Client.Get, bind.
  rewrite request_planned, Hp. simpl. rewrite Hi. simpl. rewrite Hb, HS.
  rewrite (scan_first_pair pre post k next digits _ Hk Hn Hd Hpre). reflexivity.
Qed.

Lemma getLinkedIssue_first_pair_example :
  fst (getLinkedIssue (Fixtures.pull 10)
         (Fixtures.tracker []
            [(10, Fixtures.record (Some "See #1: fixes #42, closes #7") "closed" None)] []))
  = Done (Some 0, None).
Proof.
  apply (getLinkedIssue_first_pair (Fixtures.pull 10) _
           (Fixtures.record (Some "See #1: fixes #42, closes #7") "closed" None)
           "See #1: fixes #42, closes #7" ["See"; "#1:"] ["closes"; "#7"]
           "fixes" "#42," "42,"); try reflexivity.
  intros [|[|[|j]]] s [= <-]; intros H; vm_compute in H; discriminate.
Defined.

(** C3: a body that ends in a keyword makes [getLinkedIssue] panic: the
    token after the keyword is read at index 2 of a slice of length 2. *)
Theorem getLinkedIssue_panics_on_trailing_keyword :
  Strings.Split "this closes" " " = ["this"; "closes"] /\
  fst (getLinkedIssue (Fixtures.pull 10)
         (Fixtures.tracker []
            [(10, Fixtures.record (Some "this closes") "closed" None)] []))
  = Panic (IndexOutOfRange 2 2).
Proof. split; vm_compute; reflexivity. Qed.

(** [Atoi] on a short string that begins with a digit and holds a byte that
    is no digit: the number is 0 and the error is a syntax error. *)
Lemma Atoi_fast_loop_syntax (s : string) (n : Z) :
  Bytes.all_bytes Bytes.is_digit s = false ->
  Strconv.Atoi_fast_loop s n = (0, Some Strconv.ErrSyntax).
Proof.
  unfold Bytes.all_bytes. revert n.
  induction s as [|c s IH]; intros n H; [discriminate|].
  cbn [list_ascii_of_string forallb] in H. cbn [Strconv.Atoi_fast_loop].
  destruct (Bytes.is_digit c); [|reflexivity].
  apply IH. exact H.
Qed.

Lemma Atoi_trailing_bytes (d : ascii) (rest : string) :
  Bytes.is_digit d = true ->
  Bytes.all_bytes Bytes.is_digit rest = false ->
  (String.length rest < 18)%nat ->
  Strconv.Atoi (String d rest) = (0, Some Strconv.ErrSyntax).
Proof.
  intros Hd Hrest Hlen. unfold Strconv.Atoi.
  assert (Hshort : ((0 <? String.length (String d rest))%nat
                    && (String.length (String d rest) <? 19)%nat) = true).
  { cbn [String.length]. apply andb_true_iff. split.
    - reflexivity.
    - apply Nat.ltb_lt. lia. }
  rewrite Hshort.
  assert (Hminus : Ascii.eqb d "-" = false).
  { destruct (Ascii.eqb_spec d "-") as [->|]; [discriminate Hd | reflexivity]. }
  assert (Hplus : Ascii.eqb d "+" = false).
  { destruct (Ascii.eqb_spec d "+") as [->|]; [discriminate Hd | reflexivity]. }
  rewrite Hminus, Hplus. cbn [orb andb].
  rewrite Atoi_fast_loop_syntax; [reflexivity|].
  unfold Bytes.all_bytes in *. cbn [list_ascii_of_string forallb].
  rewrite Hd. exact Hrest.
Qed.

(** C7: for the body "Fixes #42 and related work" the extractor returns 42,
    and for "Related to #42" nothing; but when the token after the keyword
    goes on after the digits, as in "Fixes #42.", everything after the hash
    sign is handed to [Atoi], its error is dropped, and the extractor
    returns 0. *)
Theorem getLinkedIssue_returns_zero_on_trailing_bytes :
  fst (getLinkedIssue (Fixtures.pull 10)
         (Fixtures.tracker []
            [(10, Fixtures.record (Some "Fixes #42 and related work") "closed" None)] []))
  = Done (Some 42, None) /\
  fst (getLinkedIssue (Fixtures.pull 10)
         (Fixtures.tracker []
            [(10, Fixtures.record (Some "Related to #42") "closed" None)] []))
  = Done (None, None) /\
  MatchString issue "#42." = true /\
  Strconv.Atoi "42." = (0, Some Strconv.ErrSyntax) /\
  fst (getLinkedIssue (Fixtures.pull 10)
         (Fixtures.tracker []
            [(10, Fixtures.record (Some "Fixes #42.") "closed" None)] []))
  = Done (Some 0, None).
Proof. repeat split; vm_compute; reflexivity. Qed.

(** ** The applier *)

(** What [Get] answers when no fault is planned for it. *)
Lemma Get_found (owner repo : string) (n : Z) (w : World) (iss : Issue.t) :
  head (faults w) = None \/ head (faults w) = Some None ->
  issues w !! n = Some iss ->
  exists w',
    Client.Get owner repo n w = (Done (Some iss, None), w') /\
    calls w' = calls w ++ [GetCall owner repo n] /\
    issues w' = issues w /\ milestones w' = milestones w /\
    output w' = output w /\ faults w' = List.tl (faults w).
Proof.
  intros Hf Hi.
  unfold Client.Get, Client.request, bind; simpl.
  destruct (faults w) as [|[msg|] fs]; simpl in *;
    try (destruct Hf; discriminate);
    rewrite Hi; eexists; repeat split; reflexivity.
Qed.

(** C8: when the record the tracker holds is already on a milestone, in
    whatever state, or has no milestone and is not closed, [updateMilestone]
    sends the one read request and no edit, and the records of the tracker
    are what they were. *)
Theorem updateMilestone_never_overwrites
  (g : GitHubIssue) (milestoneId : Z) (w : World) (iss : Issue.t) :
  issues w !! Id g = Some iss ->
  is_Some (Issue.Milestone iss) \/ closed iss = false ->
  calls (snd (updateMilestone g milestoneId w))
  = calls w ++ [GetCall (Owner g) (Repo g) (Id g)] /\
  writes (snd (updateMilestone g milestoneId w)) = writes w /\
  issues (snd (updateMilestone g milestoneId w)) = issues w.
Proof.
  intros Hi Hcase.
  assert (Hcalls :
    calls (snd (updateMilestone g milestoneId w))
    = calls w ++ [GetCall (Owner g) (Repo g) (Id g)] /\
    issues (snd (updateMilestone g milestoneId w)) = issues w).
  { unfold updateMilestone, Client.Get, Client.request, bind, closed in *; simpl.
    destruct (faults w) as [|[msg|] fs]; simpl; try (split; reflexivity);
      rewrite Hi; simpl;
      destruct (Issue.Milestone iss) as [m|] eqn:Hm; simpl.
    - destruct (Milestone.Title m); simpl; split; reflexivity.
    - destruct Hcase as [[m Hm']|Hc]; [discriminate|].
      destruct (Issue.State iss) as [st|]; simpl; [|split; reflexivity].
      rewrite Hc. simpl. split; reflexivity.
    - destruct (Milestone.Title m); simpl; split; reflexivity.
    - destruct Hcase as [[m Hm']|Hc]; [discriminate|].
      destruct (Issue.State iss) as [st|]; simpl; [|split; reflexivity].
      rewrite Hc. simpl. split; reflexivity. }
  destruct Hcalls as [Hc Hiss]. repeat split; try assumption.
  unfold writes. rewrite Hc, List.filter_app. simpl. apply app_nil_r.
Qed.

Lemma updateMilestone_never_overwrites_witness :
  let w := Fixtures.tracker [Fixtures.open_milestone "v0.9.0" 3]
             [(7, Fixtures.record None "open" None)] [] in
  let iss := Fixtures.record None "open" None in
  issues w !! 7 = Some iss /\
  (is_Some (Issue.Milestone iss) \/ closed iss = false) /\
  calls (snd (updateMilestone (Fixtures.pull 7) 3 w))
  = calls w ++ [GetCall "octo" "demo" 7] /\
  writes (snd (updateMilestone (Fixtures.pull 7) 3 w)) = writes w /\
  issues (snd (updateMilestone (Fixtures.pull 7) 3 w)) = issues w.
Proof.
  intros w iss.
  split; [reflexivity|]. split; [right; reflexivity|].
  apply (updateMilestone_never_overwrites (Fixtures.pull 7) 3 w iss).
  - reflexivity.
  - right. reflexivity.
Defined.

(** When the record has no milestone and is closed, and the two requests
    are not made to fail, [updateMilestone] reads the record, sends one edit
    with the given number, and the record ends on the milestone of that
    number. *)
Lemma updateMilestone_applies
  (g : GitHubIssue) (milestoneId : Z) (w : World) (iss : Issue.t)
  (m : Milestone.t) :
  planned w 0 = None -> planned w 1 = None ->
  issues w !! Id g = Some iss ->
  Issue.Milestone iss = None -> closed iss = true ->
  List.find (Client.has_number milestoneId) (milestones w) = Some m ->
  updateMilestone g milestoneId w
  = (Done None,
     {| milestones := milestones w;
        issues := <[Id g := on_milestone iss m]> (issues w);
        faults := List.tl (List.tl (faults w));
        calls := (calls w ++ [GetCall (Owner g) (Repo g) (Id g)])
                 ++ [EditCall (Owner g) (Repo g) (Id g) milestoneId];
        output := output w |}).
Proof.
  unfold planned, closed, updateMilestone, Client.Get, Client.Edit,
    Client.request, bind, on_milestone.
  intros H0 H1 Hi Hm Hc Hf.
  destruct (Issue.State iss) as [st|] eqn:Hs; [|discriminate].
  destruct (faults w) as [|f0 [|f1 fs]]; simpl in *; subst;
    repeat (cbn; rewrite ?Hi, ?Hm, ?Hs, ?Hc, ?Hf); reflexivity.
Qed.

(** ** The applier on a record that is open and on no milestone *)

(** X18: a record that is on no milestone and whose state is not closed
    makes [updateMilestone] panic after its read request: the log line
    dereferences the milestone that is not there. *)
Lemma updateMilestone_open_unmilestoned
  (g : GitHubIssue) (milestoneId : Z) (w : World) (iss : Issue.t) (state : string) :
  planned w 0 = None ->
  issues w !! Id g = Some iss ->
  Issue.Milestone iss = None ->
  Issue.State iss = Some state ->
  Strings.EqualFold state "closed" = false ->
  updateMilestone g milestoneId w
  = (Panic NilDereference, sent (GetCall (Owner g) (Repo g) (Id g)) w).
Proof.
  intros Hp Hi Hm Hs He.
  unfold updateMilestone, Client.Get, bind.
  rewrite request_planned, Hp. simpl. rewrite Hi. simpl.
  rewrite Hm. simpl. rewrite Hs. simpl. rewrite He. reflexivity.
Qed.

Lemma updateMilestone_open_unmilestoned_witness :
  let w := Fixtures.tracker [Fixtures.open_milestone "v0.9.0" 3]
             [(7, Fixtures.record None "reopened" None)] [] in
  updateMilestone (Fixtures.pull 7) 3 w
  = (Panic NilDereference, sent (GetCall "octo" "demo" 7) w).
Proof.
  intros w.
  apply (updateMilestone_open_unmilestoned (Fixtures.pull 7) 3 w
           (Fixtures.record None "reopened" None) "reopened"); reflexivity.
Defined.

(** C4: on a record with no milestone that is still open,
    [updateMilestone] sends no edit, but it does not return: the log line
    reads the title of the record's milestone, which is nil. *)
Theorem updateMilestone_panics_on_open_unmilestoned :
  updateMilestone (Fixtures.pull 7) 3
    (Fixtures.tracker [Fixtures.open_milestone "v0.9.0" 3]
       [(7, Fixtures.record None "open" None)] [])
  = (Panic NilDereference,
     {| milestones := [Fixtures.open_milestone "v0.9.0" 3];
        issues := {[ 7 := Fixtures.record None "open" None ]};
        faults := [];
        calls := [GetCall "octo" "demo" 7];
        output := [] |}).
Proof. vm_compute. reflexivity. Qed.

(** ** Which errors of the tracker reach [main] *)

Lemma getMilestoneId_list_error (g : GitHubIssue) (w : World) (msg : string) :
  planned w 0 = Some msg ->
  getMilestoneId g w
  = (Done (None, Some (Errorf "retrieving list of milestones: " (ClientError msg))),
     sent (ListMilestonesCall (Owner g) (Repo g)) w).
Proof.
  intros Hp. unfold getMilestoneId, Client.ListMilestones, bind.
  rewrite request_planned, Hp. reflexivity.
Qed.

Lemma updateMilestone_get_error
  (g : GitHubIssue) (milestoneId : Z) (w : World) (msg : string) :
  planned w 0 = Some msg ->
  updateMilestone g milestoneId w
  = (Done (Some (Errorf ("getting issue #" ++ Strconv.Itoa (Id g) ++ ": ")
                   (ClientError msg))),
     sent (GetCall (Owner g) (Repo g) (Id g)) w).
Proof.
  intros Hp. unfold updateMilestone, Client.Get, bind.
  rewrite request_planned, Hp. reflexivity.
Qed.

(** X19: when the edit fails, its error comes back with the number of the
    issue in front, after the read and the edit request; the records of the
    tracker are what they were. *)
Lemma updateMilestone_edit_error
  (g : GitHubIssue) (milestoneId : Z) (w : World) (iss : Issue.t) (msg : string) :
  planned w 0 = None -> planned w 1 = Some msg ->
  issues w !! Id g = Some iss ->
  Issue.Milestone iss = None -> closed iss = true ->
  updateMilestone g milestoneId w
  = (Done (Some (Errorf ("updating milestone on issue #"
                         ++ Strconv.Itoa (Id g) ++ ": ") (ClientError msg))),
     sent (EditCall (Owner g) (Repo g) (Id g) milestoneId)
       (sent (GetCall (Owner g) (Repo g) (Id g)) w)).
Proof.
  intros H0 H1 Hi Hm Hc.
  unfold closed in Hc. destruct (Issue.State iss) as [st|] eqn:Hs; [|discriminate].
  unfold planned in H0, H1.
  unfold updateMilestone, Client.Get, Client.Edit, Client.request, bind, sent.
  destruct (faults w) as [|f0 [|f1 fs]]; simpl in *; subst; try discriminate;
    repeat (cbn; rewrite ?Hi, ?Hm, ?Hs, ?Hc); reflexivity.
Qed.

Lemma updateMilestone_edit_error_witness :
  let w := Fixtures.tracker [Fixtures.open_milestone "v0.9.0" 3]
             [(7, Fixtures.record None "closed" None)]
             [None; Some "502 Bad Gateway"] in
  updateMilestone (Fixtures.pull 7) 3 w
  = (Done (Some (Errorf "updating milestone on issue #7: "
                   (ClientError "502 Bad Gateway"))),
     sent (EditCall "octo" "demo" 7 3) (sent (GetCall "octo" "demo" 7) w)).
Proof.
  intros w.
  apply (updateMilestone_edit_error (Fixtures.pull 7) 3 w
           (Fixtures.record None "closed" None) "502 Bad Gateway"); reflexivity.
Defined.

(** An error that [run] returns is printed by [main], which ends with 1. *)
Lemma main_reports (env : Env) (w w' : World) (err : error) :
  run env w = (Done (Some err), w') ->
  fst (main env w) = 1 /\ output (snd (main env w)) = output w' ++ [Fatal err].
Proof. intros H. unfold main. rewrite H. split; reflexivity. Qed.

(** X14: the read request of [getLinkedIssue] is the exception: when it
    fails, nothing is returned at all, the nil record is dereferenced. *)
Lemma getLinkedIssue_get_error (g : GitHubIssue) (w : World) (msg : string) :
  planned w 0 = Some msg ->
  getLinkedIssue g w
  = (Panic NilDereference, sent (GetCall (Owner g) (Repo g) (Id g)) w).
Proof.
  intros Hp. unfold getLinkedIssue, Client.Get, bind.
  rewrite request_planned, Hp. reflexivity.
Qed.

Lemma getLinkedIssue_get_error_witness :
  let w := Fixtures.tracker []
             [(10, Fixtures.record (Some "Fixes #7") "closed" None)]
             [Some "500 Internal Server Error"] in
  getLinkedIssue (Fixtures.pull 10) w
  = (Panic NilDereference, sent (GetCall "octo" "demo" 10) w).
Proof.
  intros w.
  apply (getLinkedIssue_get_error (Fixtures.pull 10) w "500 Internal Server Error").
  reflexivity.
Defined.

(** C5: when the read request of [getLinkedIssue] fails (the fourth request
    of the run), the error is dropped, the nil record is dereferenced, and
    the process ends by a panic: nothing is returned to [main] and no error
    is printed. *)
Theorem getLinkedIssue_drops_the_error :
  main (Fixtures.env "octo/demo" "10")
    (Fixtures.tracker [Fixtures.open_milestone "v0.9.0" 3]
       [(10, Fixtures.record (Some "Closes #7") "closed" None)]
       [None; None; None; Some "connection reset"])
  = (2,
     {| milestones := [Fixtures.open_milestone "v0.9.0" 3];
        issues := {[ 10 := Fixtures.on_milestone_record ]};
        faults := [];
        calls := [ListMilestonesCall "octo" "demo"; GetCall "octo" "demo" 10;
                  EditCall "octo" "demo" 10 3; GetCall "octo" "demo" 10];
        output := [Printf "[DEBUG] lowest open version milestone: 0.9.0"] |}).
Proof. vm_compute. reflexivity. Qed.

(** The order of the steps of [run] when every step succeeds and the body
    of the pull request names an issue: the number that [getMilestoneId]
    returned is the one both calls of [updateMilestone] receive. *)
Lemma run_sequence (env : Env) (w w1 w2 w3 w4 : World)
  (owner repo : string) (rest : list string) (prId milestoneId liId : Z)
  (r : outcome (option error)) :
  Strings.Split (github_repository env) "/" = owner :: repo :: rest ->
  Strconv.Atoi (pr_number env) = (prId, None) ->
  getMilestoneId {| Owner := owner; Repo := repo; Id := prId |} w
  = (Done (Some milestoneId, None), w1) ->
  updateMilestone {| Owner := owner; Repo := repo; Id := prId |} milestoneId w1
  = (Done None, w2) ->
  getLinkedIssue {| Owner := owner; Repo := repo; Id := prId |} w2
  = (Done (Some liId, None), w3) ->
  updateMilestone {| Owner := owner; Repo := repo; Id := liId |} milestoneId w3
  = (r, w4) ->
  run env w = (r, w4).
Proof.
  intros HS HA H1 H2 H3 H4.
  unfold run, bind, index. rewrite HS. simpl. rewrite HA, H1. simpl.
  rewrite H2, H3. simpl. rewrite H4. destruct r; reflexivity.
Qed.

(** ** End to end *)

(** C9: in the scenario the run lists the milestones once, sets the number
    of v0.9.0 on pull request 10, reads its body, sets the same number on
    issue 7, and ends with status 0; afterwards both records are on
    v0.9.0. *)
Theorem scenario_links_pull_request_and_issue (a b : Z) :
  fst (main Scenario.env (Scenario.world a b)) = 0 /\
  calls (snd (main Scenario.env (Scenario.world a b)))
  = [ListMilestonesCall "octo" "demo";
     GetCall "octo" "demo" 10; EditCall "octo" "demo" 10 a;
     GetCall "octo" "demo" 10;
     GetCall "octo" "demo" 7; EditCall "octo" "demo" 7 a] /\
  milestone_of (snd (main Scenario.env (Scenario.world a b))) 10
  = Some (Fixtures.open_milestone "v0.9.0" a) /\
  milestone_of (snd (main Scenario.env (Scenario.world a b))) 7
  = Some (Fixtures.open_milestone "v0.9.0" a).
Proof.
  set (pr := {| Owner := "octo"; Repo := "demo"; Id := 10 |}).
  set (li := {| Owner := "octo"; Repo := "demo"; Id := 7 |}).
  set (w := Scenario.world a b).
  assert (Hfind : List.find (Client.has_number a) (milestones w)
                  = Some (Fixtures.open_milestone "v0.9.0" a)).
  { simpl. unfold Client.has_number. simpl. rewrite Z.eqb_refl. reflexivity. }
  destruct (getMilestoneId pr w) as [r1 w1] eqn:H1.
  assert (E1 : r1 = Done (Some a, None) /\ milestones w1 = milestones w /\
               issues w1 = issues w /\ faults w1 = [] /\
               calls w1 = [ListMilestonesCall "octo" "demo"]).
  { replace r1 with (fst (getMilestoneId pr w)) by (rewrite H1; reflexivity).
    replace w1 with (snd (getMilestoneId pr w)) by (rewrite H1; reflexivity).
    vm_compute. repeat split; reflexivity. }
  destruct E1 as (-> & Em1 & Ei1 & Ef1 & Ec1).
  pose proof (updateMilestone_applies pr a w1
                (Fixtures.record (Some "Closes #7") "closed" None)
                (Fixtures.open_milestone "v0.9.0" a)) as H2.
  unfold planned in H2. rewrite Ef1, Ei1, Em1 in H2.
  specialize (H2 eq_refl eq_refl eq_refl eq_refl eq_refl Hfind).
  rewrite Ec1 in H2. simpl in H2.
  match type of H2 with _ = (_, ?x) => set (w2 := x) in * end.
  destruct (getLinkedIssue pr w2) as [r3 w3] eqn:H3.
  assert (E3 : r3 = Done (Some 7, None) /\ milestones w3 = milestones w /\
               issues w3 = issues w2 /\ faults w3 = [] /\
               calls w3 = calls w2 ++ [GetCall "octo" "demo" 10]).
  { replace r3 with (fst (getLinkedIssue pr w2)) by (rewrite H3; reflexivity).
    replace w3 with (snd (getLinkedIssue pr w2)) by (rewrite H3; reflexivity).
    vm_compute. repeat split; reflexivity. }
  destruct E3 as (-> & Em3 & Ei3 & Ef3 & Ec3).
  pose proof (updateMilestone_applies li a w3
                (Fixtures.record (Some "The build is red") "closed" None)
                (Fixtures.open_milestone "v0.9.0" a)) as H4.
  unfold planned in H4. rewrite Ef3, Ei3, Em3 in H4.
  specialize (H4 eq_refl eq_refl eq_refl eq_refl eq_refl Hfind).
  rewrite Ec3 in H4.
  assert (Hrun : run Scenario.env w = (Done None, _))
    by exact (run_sequence Scenario.env w w1 w2 w3 _ "octo" "demo" [] 10 a 7 _
                eq_refl eq_refl H1 H2 H3 H4).
  unfold main. rewrite Hrun. simpl.
  repeat split; unfold milestone_of; simpl; vm_compute; reflexivity.
Qed.

(** * Further properties *)

(** ** Which titles are versions for the resolver *)

Lemma run_Cat_in (a b : regex) (c x : cursor) :
  In x (Regexp.run (Cat a b) c) <->
  exists m, In m (Regexp.run a c) /\ In x (Regexp.run b m).
Proof. simpl. apply in_flat_map. Qed.

Lemma run_Lit_in (a : ascii) (i j : nat) (t rest : string) :
  In (j, rest) (Regexp.run (Lit a) (i, t)) <-> t = String a rest /\ j = S i.
Proof.
  simpl. destruct t as [|b t]; [split; [intros [] | intros [H _]; discriminate]|].
  destruct (Ascii.eqb_spec a b) as [<-|Hne]; simpl.
  - split; [intros [[= <- <-]|[]]; auto | intros [[= ->] ->]; auto].
  - split; [intros [] | intros [[= H _] _]; congruence].
Qed.

Lemma run_digit_in (i j : nat) (t rest : string) :
  In (j, rest) (Regexp.run digit (i, t)) <->
  exists d, Bytes.is_digit d = true /\ t = String d rest /\ j = S i.
Proof.
  unfold digit. cbn [Regexp.run fst snd].
  destruct t as [|b t]; [split; [intros [] | intros (d & _ & H & _); discriminate]|].
  rewrite in_digit_class. destruct (Bytes.is_digit b) eqn:Hb; simpl.
  - split; [intros [[= <- <-]|[]]; eauto | intros (d & _ & [= -> ->] & ->); auto].
  - split; [intros [] | intros (d & Hd & [= -> _] & _); congruence].
Qed.

Lemma rounds_digit_in (fuel i j : nat) (t rest : string) :
  In (j, rest) (rounds fuel (Regexp.run digit) (i, t)) <->
  exists ds, Bytes.all_bytes Bytes.is_digit ds = true /\
    (String.length ds <= fuel)%nat /\
    t = (ds ++ rest)%string /\ j = (i + String.length ds)%nat.
Proof.
  revert i t. induction fuel as [|fuel IH]; intros i t.
  - simpl. split.
    + intros [[= <- <-]|[]]. exists "". repeat split; simpl; lia.
    + intros (ds & _ & Hl & -> & ->). destruct ds; [|simpl in Hl; lia].
      left. simpl. f_equal. lia.
  - cbn [rounds]. cbn [In]. rewrite in_flat_map. split.
    + intros [[= <- <-]|([k mid] & Hk & Hin)].
      * exists "". repeat split; simpl; lia.
      * apply filter_In in Hk as [Hk _].
        apply run_digit_in in Hk as (d & Hd & -> & ->).
        apply IH in Hin as (ds & Hds & Hl & -> & ->).
        exists (String d ds). unfold Bytes.all_bytes in *.
        cbn [list_ascii_of_string forallb String.length]. rewrite Hd, Hds.
        repeat split; try reflexivity; lia.
    + intros (ds & Hds & Hl & -> & ->). destruct ds as [|d ds].
      * left. simpl. f_equal. lia.
      * right. unfold Bytes.all_bytes in Hds.
        cbn [list_ascii_of_string forallb String.length] in *.
        apply andb_true_iff in Hds as [Hd Hds].
        exists (S i, (ds ++ rest)%string). split.
        -- apply filter_In. split.
           ++ apply run_digit_in. exists d. auto.
           ++ simpl. apply Nat.ltb_lt. lia.
        -- apply IH. exists ds. repeat split; try assumption; lia.
Qed.

Lemma run_plus_digit_in (i j : nat) (t rest : string) :
  In (j, rest) (Regexp.run (Plus digit) (i, t)) <->
  exists d ds, Bytes.is_digit d = true /\ Bytes.all_bytes Bytes.is_digit ds = true /\
    t = String d (ds ++ rest)%string /\ j = (i + S (String.length ds))%nat.
Proof.
  cbn [Regexp.run]. rewrite in_flat_map. split.
  - intros ([k mid] & Hk & Hin).
    apply run_digit_in in Hk as (d & Hd & Ht & ->).
    apply rounds_digit_in in Hin as (ds & Hds & _ & -> & ->).
    exists d, ds. repeat split; try assumption. lia.
  - intros (d & ds & Hd & Hds & -> & ->).
    exists (S i, (ds ++ rest)%string). split.
    + apply run_digit_in. exists d. auto.
    + apply rounds_digit_in. exists ds. repeat split; try assumption; try lia.
      cbn [snd String.length]. rewrite length_append. lia.
Qed.

Lemma non_nil_in {A} (l : list A) : l <> [] <-> exists x, In x l.
Proof.
  destruct l as [|a l]; split.
  - congruence.
  - intros [x []].
  - intros _. exists a. left. reflexivity.
  - discriminate.
Qed.

Lemma run_version_title (i : nat) (t : string) :
  Regexp.run version_title (i, t) <> [] <-> begins_with_version t.
Proof.
  change version_title with
    (Cat (Lit "v") (Cat digit (Cat (Lit ".") (Cat (Plus digit) (Cat (Lit ".") digit))))).
  rewrite non_nil_in. split.
  - intros ([j rest] & H).
    apply run_Cat_in in H as ([j1 t1] & H1 & H).
    apply run_Lit_in in H1 as [-> ->].
    apply run_Cat_in in H as ([j2 t2] & H2 & H).
    apply run_digit_in in H2 as (d1 & Hd1 & -> & ->).
    apply run_Cat_in in H as ([j3 t3] & H3 & H).
    apply run_Lit_in in H3 as [-> ->].
    apply run_Cat_in in H as ([j4 t4] & H4 & H).
    apply run_plus_digit_in in H4 as (d2 & ds & Hd2 & Hds & -> & ->).
    apply run_Cat_in in H as ([j5 t5] & H5 & H).
    apply run_Lit_in in H5 as [-> ->].
    apply run_digit_in in H as (d3 & Hd3 & -> & ->).
    exists d1, d2, ds, d3, rest. auto.
  - intros (d1 & d2 & ds & d3 & rest & -> & Hd1 & Hd2 & Hds & Hd3).
    exists ((S (S (i + 3 + S (String.length ds))))%nat, rest).
    apply run_Cat_in. eexists. split; [apply run_Lit_in; split; reflexivity|].
    apply run_Cat_in. eexists. split; [apply run_digit_in; exists d1; auto|].
    apply run_Cat_in. eexists. split; [apply run_Lit_in; split; reflexivity|].
    apply run_Cat_in. eexists. split.
    { apply run_plus_digit_in. exists d2, ds. repeat split; try assumption; reflexivity. }
    apply run_Cat_in. eexists. split; [apply run_Lit_in; split; reflexivity|].
    apply run_digit_in. exists d3. repeat split; try assumption. lia.
Qed.

(** X1: a title matches the version pattern exactly when it contains,
    anywhere, v, a digit, a dot, one or more digits, a dot and a digit: the
    major and the patch number are one digit, and text before and after is
    allowed. *)
Theorem version_title_matches (title : string) :
  MatchString version_title title = true <->
  exists p t, title = (p ++ t)%string /\ begins_with_version t.
Proof.
  rewrite MatchString_true. split.
  - intros (i & Hi & H). apply run_version_title in H.
    destruct (proj1 (drop_bytes_suffix title (Bytes.drop_bytes i title))) as (p & Hp);
      [eauto|]. eauto.
  - intros (p & t & -> & H).
    destruct (proj2 (drop_bytes_suffix (p ++ t)%string t)) as (i & Hi & Hd); [eauto|].
    exists i. split; [exact Hi|]. rewrite Hd. apply run_version_title. exact H.
Qed.

(** ** Which milestone the resolver returns *)

Lemma collect_complete (l : list Milestone.t) (acc : gmap string Z) (w : World) :
  forallb complete l = true ->
  exists table,
    collect l acc w = (Done table, w) /\
    (forall k, is_Some (acc !! k) -> is_Some (table !! k)) /\
    (forall m, In m l -> is_open_version m = true ->
       exists k, key_of m = Some k /\ is_Some (table !! k)).
Proof.
  revert acc. induction l as [|m l IH]; intros acc Hall.
  - exists acc. split; [reflexivity|]. split; [auto | intros m []].
  - cbn [forallb] in Hall. apply andb_true_iff in Hall as [Hm Hl].
    unfold complete in Hm.
    destruct (Milestone.Title m) as [title|] eqn:Ht; [|discriminate].
    destruct (Milestone.State m) as [state|] eqn:Hs; [|discriminate].
    destruct (Milestone.Number m) as [number|] eqn:Hn; [|discriminate].
    cbn [collect]. unfold bind, deref, ret, slice. rewrite Ht.
    assert (Hskip : is_open_version m = false ->
              exists table, collect l acc w = (Done table, w) /\
                (forall k, is_Some (acc !! k) -> is_Some (table !! k)) /\
                (forall m0, In m0 (m :: l) -> is_open_version m0 = true ->
                   exists k, key_of m0 = Some k /\ is_Some (table !! k))).
    { intros Hno. destruct (IH acc Hl) as (table & Hc & Hacc & Hin).
      exists table. split; [exact Hc|]. split; [exact Hacc|].
      intros m0 [<-|H0] Ho; [congruence | exact (Hin m0 H0 Ho)]. }
    destruct (MatchString version_title title) eqn:Hmatch.
    2:{ apply Hskip. unfold is_open_version. rewrite Ht, Hs, Hmatch. reflexivity. }
    rewrite Hs. destruct (Strings.EqualFold state "closed") eqn:He; cbn [negb].
    { apply Hskip. unfold is_open_version. rewrite Ht, Hs, Hmatch, He. reflexivity. }
    destruct title as [|c key]; [vm_compute in Hmatch; discriminate|].
    cbn [Bytes.slice_from]. rewrite Hn.
    destruct (IH (<[key := number]> acc) Hl) as (table & Hc & Hacc & Hin).
    exists table. split; [exact Hc|]. split.
    + intros k Hk. apply Hacc. destruct (decide (key = k)) as [->|Hne].
      * rewrite lookup_insert_eq. eauto.
      * rewrite lookup_insert_ne by exact Hne. exact Hk.
    + intros m0 [<-|H0] Ho; [|exact (Hin m0 H0 Ho)].
      exists key. split; [unfold key_of; rewrite Ht; reflexivity|].
      apply Hacc. rewrite lookup_insert_eq. eauto.
Qed.

(** What [getMilestoneId] does to the world, whatever it returns. *)
Lemma getMilestoneId_requests (g : GitHubIssue) (w : World) :
  calls (snd (getMilestoneId g w))
  = calls w ++ [ListMilestonesCall (Owner g) (Repo g)] /\
  issues (snd (getMilestoneId g w)) = issues w /\
  milestones (snd (getMilestoneId g w)) = milestones w /\
  faults (snd (getMilestoneId g w)) = List.tl (faults w).
Proof.
  unfold getMilestoneId, Client.ListMilestones, bind.
  rewrite request_planned. destruct (planned w 0) as [msg|]; cbn [ret fst snd].
  { repeat split. }
  destruct (collect_pure (milestones (sent (ListMilestonesCall (Owner g) (Repo g)) w)) ∅
              (sent (ListMilestonesCall (Owner g) (Repo g)) w) w) as [Hw _].
  destruct (collect (milestones (sent (ListMilestonesCall (Owner g) (Repo g)) w)) ∅
              (sent (ListMilestonesCall (Owner g) (Repo g)) w)) as [[table|p] w1];
    cbn [snd] in Hw; subst w1; [|repeat split].
  destruct (size table =? 0)%nat; [repeat split|].
  unfold index.
  destruct (Semver.Sort (keys table) !! 0%nat); repeat split.
Qed.

(** A number that [getMilestoneId] returns is the number of a milestone of
    the tracker that is an open version. *)
Lemma getMilestoneId_sound
  (g : GitHubIssue) (w : World) (n : Z) (e : option error) :
  fst (getMilestoneId g w) = Done (Some n, e) ->
  exists m, In m (milestones w) /\ is_open_version m = true /\
            Milestone.Number m = Some n.
Proof.
  unfold getMilestoneId, Client.ListMilestones, bind.
  rewrite request_planned. destruct (planned w 0) as [msg|]; cbn [ret fst snd];
    [discriminate|].
  change (milestones (sent (ListMilestonesCall (Owner g) (Repo g)) w))
    with (milestones w).
  destruct (collect_pure (milestones w) ∅
              (sent (ListMilestonesCall (Owner g) (Repo g)) w) w) as [Hw Hf].
  destruct (collect (milestones w) ∅
              (sent (ListMilestonesCall (Owner g) (Repo g)) w)) as [[table|p] w1] eqn:Hc;
    cbn [fst snd] in *; subst w1; [|discriminate].
  destruct (size table =? 0)%nat; [discriminate|].
  unfold index.
  destruct (Semver.Sort (keys table) !! 0%nat) as [lowest|] eqn:Hl; cbn [fst];
    [|discriminate].
  intros [= <- <-].
  assert (Hin : In lowest (keys table)).
  { apply Sort_In. apply list_elem_of_In. eapply list_elem_of_lookup_2. exact Hl. }
  unfold keys in Hin. apply list_elem_of_In, list_elem_of_fmap in Hin
    as ([k v] & -> & Hkv). apply elem_of_map_to_list in Hkv. cbn [fst].
  rewrite Hkv. cbn [default].
  symmetry in Hf.
  destruct (collect_sound (milestones w) ∅ table w k v Hf Hkv)
    as [A|(m & title & Hm & Ho & _ & _ & Hn)].
  - rewrite lookup_empty in A. discriminate.
  - exists m. auto.
Qed.

(** X2: [getMilestoneId] returns a number or an error, never both and never
    neither, and a number it returns is the number of a milestone of the
    tracker that is an open version. *)
Theorem getMilestoneId_number_or_error
  (g : GitHubIssue) (w : World) (r : option Z) (e : option error) :
  fst (getMilestoneId g w) = Done (r, e) ->
  (exists n m, r = Some n /\ e = None /\ In m (milestones w) /\
               is_open_version m = true /\ Milestone.Number m = Some n) \/
  (r = None /\ exists err, e = Some err).
Proof.
  intros H. destruct r as [n|].
  - left. destruct (getMilestoneId_sound g w n e H) as (m & Hin & Ho & Hn).
    exists n, m. repeat split; try assumption.
    revert H. unfold getMilestoneId, Client.ListMilestones, bind.
    rewrite request_planned. destruct (planned w 0); cbn [ret fst snd];
      [discriminate|].
    destruct (collect _ ∅ _) as [[table|p] w1]; cbn [fst]; [|discriminate].
    destruct (size table =? 0)%nat; [discriminate|].
    unfold index. destruct (Semver.Sort (keys table) !! 0%nat); cbn [fst];
      [|discriminate].
    intros [= _ <-]. reflexivity.
  - right. split; [reflexivity|].
    revert H. unfold getMilestoneId, Client.ListMilestones, bind.
    rewrite request_planned. destruct (planned w 0); cbn [ret fst snd].
    { intros [= <-]. eauto. }
    destruct (collect _ ∅ _) as [[table|p] w1]; cbn [fst]; [|discriminate].
    destruct (size table =? 0)%nat; [intros [= <-]; eauto|].
    unfold index. destruct (Semver.Sort (keys table) !! 0%nat); cbn [fst];
      discriminate.
Qed.

Lemma getMilestoneId_number_or_error_witness :
  let w := Fixtures.tracker
             [Fixtures.closed_milestone "v0.8.0" 2; Fixtures.open_milestone "v0.9.0" 3]
             [] [] in
  (exists n m, Some 3 = Some n /\ (None : option error) = None /\
               In m (milestones w) /\
               is_open_version m = true /\ Milestone.Number m = Some n) \/
  ((Some 3 : option Z) = None /\ exists err, (None : option error) = Some err).
Proof.
  intros w.
  apply (getMilestoneId_number_or_error (Fixtures.pull 10) w (Some 3) None).
  vm_compute. reflexivity.
Defined.

(** X3: when every milestone has its title, state and number set and the
    titles of the open versions begin with v and a digit, [getMilestoneId]
    returns the number of the open version whose title without the v is
    lowest as a byte string. *)
Theorem getMilestoneId_picks_lowest_title (g : GitHubIssue) (w : World) :
  planned w 0 = None ->
  forallb complete (milestones w) = true ->
  (forall m title, In m (milestones w) -> is_open_version m = true ->
     Milestone.Title m = Some title ->
     exists d rest, title = String "v" (String d rest) /\ Bytes.is_digit d = true) ->
  (exists m, In m (milestones w) /\ is_open_version m = true) ->
  exists m k n,
    In m (milestones w) /\ is_open_version m = true /\
    key_of m = Some k /\ Milestone.Number m = Some n /\
    (forall m' k', In m' (milestones w) -> is_open_version m' = true ->
       key_of m' = Some k' -> k' = k \/ Bytes.lt_string k k' = true) /\
    fst (getMilestoneId g w) = Done (Some n, None).
Proof.
  intros Hp Hall Htitles (m0 & Hin0 & Hopen0).
  destruct (collect_complete (milestones w) ∅ w Hall) as (table & Hc & _ & Hkeys).
  assert (Hfst : fst (collect (milestones w) ∅ w) = Done table) by (rewrite Hc; reflexivity).
  assert (Hne : table <> ∅).
  { destruct (Hkeys m0 Hin0 Hopen0) as (k0 & _ & [n0 Hn0]).
    intros ->. rewrite lookup_empty in Hn0. discriminate. }
  assert (Hinv : forall k, is_Some (table !! k) -> invalid k).
  { intros k [n Hk].
    destruct (collect_sound _ _ _ _ _ _ Hfst Hk)
      as [A|(m & title & Hin & Ho & Ht & Hs & _)].
    - rewrite lookup_empty in A. discriminate.
    - destruct (Htitles m title Hin Ho Ht) as (d & rest & -> & Hd).
      cbn [Bytes.slice_from] in Hs. injection Hs as <-.
      apply parse_needs_v. intros r [= -> _]. discriminate. }
  destruct (getMilestoneId_returns_lowest_key g w table Hp Hfst Hne Hinv)
    as (k & n & Hk & Hlow & Hres).
  destruct (collect_sound (milestones w) ∅ table w k n Hfst Hk)
    as [A|(m & title & Hm & Ho & Ht & Hs & Hn)].
  { rewrite lookup_empty in A. discriminate. }
  exists m, k, n. repeat split; try assumption.
  - unfold key_of. rewrite Ht. exact Hs.
  - intros m' k' Hm' Ho' Hk'.
    destruct (Hkeys m' Hm' Ho') as (k'' & Hk'' & Hsome).
    rewrite Hk' in Hk''. injection Hk'' as <-. apply Hlow, Hsome.
Qed.

Lemma getMilestoneId_picks_lowest_title_witness :
  let w := Fixtures.tracker
             [Fixtures.open_milestone "v1.2.0" 1;
              Fixtures.closed_milestone "v1.0.0" 4;
              Fixtures.open_milestone "backlog" 7;
              Fixtures.open_milestone "v1.10.0" 2] [] [] in
  planned w 0 = None /\
  forallb complete (milestones w) = true /\
  (exists m, In m (milestones w) /\ is_open_version m = true) /\
  exists m k n,
    In m (milestones w) /\ is_open_version m = true /\
    key_of m = Some k /\ Milestone.Number m = Some n /\
    (forall m' k', In m' (milestones w) -> is_open_version m' = true ->
       key_of m' = Some k' -> k' = k \/ Bytes.lt_string k k' = true) /\
    fst (getMilestoneId (Fixtures.pull 10) w) = Done (Some n, None).
Proof.
  intros w.
  assert (H0 : planned w 0 = None) by reflexivity.
  assert (H1 : forallb complete (milestones w) = true) by reflexivity.
  assert (H2 : exists m, In m (milestones w) /\ is_open_version m = true).
  { exists (Fixtures.open_milestone "v1.2.0" 1). split; [left; reflexivity|].
    vm_compute. reflexivity. }
  split; [exact H0|]. split; [exact H1|]. split; [exact H2|].
  apply (getMilestoneId_picks_lowest_title (Fixtures.pull 10) w H0 H1); [|exact H2].
  intros m title [<-|[<-|[<-|[<-|[]]]]] Ho [= <-];
    try (vm_compute in Ho; discriminate Ho);
    eexists _, _; split; reflexivity.
Defined.

(** ** The numbers [Atoi] returns *)

Lemma digit_val_range (c : ascii) :
  Bytes.is_digit c = true -> 0 <= Strconv.digit_val c <= 9.
Proof.
  unfold Bytes.is_digit, Bytes.between, Strconv.digit_val.
  rewrite andb_true_iff, !N.leb_le.
  change (Bytes.code "0") with 48%N. change (Bytes.code "9") with 57%N. lia.
Qed.

Lemma Atoi_fast_loop_range (s : string) (n : Z) :
  0 <= n ->
  0 <= fst (Strconv.Atoi_fast_loop s n)
    < (n + 1) * 10 ^ Z.of_nat (String.length s).
Proof.
  revert n. induction s as [|c s IH]; intros n Hn.
  - simpl. lia.
  - cbn [Strconv.Atoi_fast_loop String.length].
    rewrite Nat2Z.inj_succ, Z.pow_succ_r by lia.
    assert (0 < 10 ^ Z.of_nat (String.length s)) by (apply Z.pow_pos_nonneg; lia).
    destruct (Bytes.is_digit c) eqn:Hc; cbn [negb fst].
    + pose proof (digit_val_range c Hc).
      specialize (IH (n * 10 + Strconv.digit_val c) ltac:(lia)). nia.
    + nia.
Qed.

Lemma ParseUint_loop_range (s : string) (n : Z) :
  0 <= n <= Strconv.maxUint64 ->
  0 <= fst (Strconv.ParseUint_loop s n) <= Strconv.maxUint64.
Proof.
  revert n. induction s as [|c s IH]; intros n Hn; [exact Hn|].
  cbn [Strconv.ParseUint_loop].
  assert (Hmax : 0 <= Strconv.maxUint64) by (vm_compute; discriminate).
  destruct (Bytes.is_digit c) eqn:Hc; cbn [negb fst]; [|lia].
  destruct (n >=? Strconv.maxUint64 / 10 + 1); cbn [fst]; [lia|].
  destruct (n * 10 + Strconv.digit_val c >? Strconv.maxUint64) eqn:Hgt; cbn [fst]; [lia|].
  apply IH. pose proof (digit_val_range c Hc).
  rewrite Z.gtb_ltb in Hgt. apply Z.ltb_ge in Hgt. lia.
Qed.

Lemma int64_bounds :
  Strconv.minInt64 = -9223372036854775808 /\
  Strconv.maxInt64 = 9223372036854775807 /\
  Strconv.maxUint64 = 18446744073709551615 /\
  2 ^ 63 = 9223372036854775808.
Proof. repeat split; reflexivity. Qed.

Lemma ParseUint_range (s : string) :
  0 <= fst (Strconv.ParseUint s) <= Strconv.maxUint64.
Proof.
  destruct int64_bounds as (_ & _ & Hu & _).
  unfold Strconv.ParseUint. destruct s as [|c s].
  - cbn [fst]. lia.
  - apply ParseUint_loop_range. lia.
Qed.

Lemma ParseInt_range (s : string) :
  Strconv.minInt64 <= fst (Strconv.ParseInt s) <= Strconv.maxInt64.
Proof.
  destruct int64_bounds as (Hmin & Hmax & Humax & H63).
  unfold Strconv.ParseInt. destruct s as [|c s]; [cbn [fst]; lia|].
  set (s1 := if (Ascii.eqb c "+" || Ascii.eqb c "-")%bool then s else String c s).
  pose proof (ParseUint_range s1) as Hu. clearbody s1.
  rewrite H63.
  destruct (Strconv.ParseUint s1) as [un [[|]|]]; cbn [fst] in Hu |- *;
    try lia;
    destruct (Ascii.eqb c "-"); cbn [negb andb];
    try destruct (Z.geb_spec un 9223372036854775808);
    try destruct (Z.gtb_spec un 9223372036854775808);
    cbn [fst]; lia.
Qed.

Lemma ParseInt_non_negative (d : ascii) (rest : string) :
  Bytes.is_digit d = true -> 0 <= fst (Strconv.ParseInt (String d rest)).
Proof.
  intros Hd. destruct int64_bounds as (Hmin & Hmax & Humax & H63).
  unfold Strconv.ParseInt.
  assert (Hminus : Ascii.eqb d "-" = false).
  { destruct (Ascii.eqb_spec d "-") as [->|]; [discriminate Hd | reflexivity]. }
  assert (Hplus : Ascii.eqb d "+" = false).
  { destruct (Ascii.eqb_spec d "+") as [->|]; [discriminate Hd | reflexivity]. }
  rewrite Hminus, Hplus. cbn [orb negb andb].
  pose proof (ParseUint_range (String d rest)) as Hu.
  rewrite H63.
  destruct (Strconv.ParseUint (String d rest)) as [un [[|]|]]; cbn [fst] in Hu |- *;
    try lia;
    destruct (Z.geb_spec un 9223372036854775808); cbn [fst]; lia.
Qed.

(** [Atoi] never leaves the range of a 64-bit [int]. *)
Lemma Atoi_in_range (s : string) :
  Strconv.minInt64 <= fst (Strconv.Atoi s) <= Strconv.maxInt64.
Proof.
  destruct int64_bounds as (Hmin & Hmax & Humax & H63).
  unfold Strconv.Atoi.
  destruct ((0 <? String.length s)%nat && (String.length s <? 19)%nat) eqn:Hshort;
    [|apply ParseInt_range].
  apply andb_true_iff in Hshort as [_ Hlen]. apply Nat.ltb_lt in Hlen.
  destruct s as [|c s]; [cbn [fst]; lia|].
  set (signed := (Ascii.eqb c "-" || Ascii.eqb c "+")%bool).
  set (s1 := if signed then s else String c s).
  assert (Hs1 : (String.length s1 <= 18)%nat).
  { subst s1. cbn [String.length] in Hlen. destruct signed; cbn [String.length]; lia. }
  clearbody s1 signed.
  destruct (signed && (String.length s1 <? 1)%nat); [cbn [fst]; lia|].
  pose proof (Atoi_fast_loop_range s1 0 ltac:(lia)) as Hr.
  assert (Hpow : 10 ^ Z.of_nat (String.length s1) <= 1000000000000000000).
  { change 1000000000000000000 with (10 ^ 18). apply Z.pow_le_mono_r; lia. }
  destruct (Strconv.Atoi_fast_loop s1 0) as [n [e|]]; cbn [fst] in Hr |- *;
    [lia|].
  destruct (Ascii.eqb c "-"); cbn [fst]; lia.
Qed.

Lemma Atoi_non_negative (d : ascii) (rest : string) :
  Bytes.is_digit d = true -> 0 <= fst (Strconv.Atoi (String d rest)).
Proof.
  intros Hd. unfold Strconv.Atoi.
  destruct ((0 <? String.length (String d rest))%nat
            && (String.length (String d rest) <? 19)%nat);
    [|apply ParseInt_non_negative, Hd].
  assert (Hminus : Ascii.eqb d "-" = false).
  { destruct (Ascii.eqb_spec d "-") as [->|]; [discriminate Hd | reflexivity]. }
  assert (Hplus : Ascii.eqb d "+" = false).
  { destruct (Ascii.eqb_spec d "+") as [->|]; [discriminate Hd | reflexivity]. }
  rewrite Hminus, Hplus. cbn [orb andb].
  pose proof (Atoi_fast_loop_range (String d rest) 0 ltac:(lia)) as Hr.
  destruct (Strconv.Atoi_fast_loop (String d rest) 0) as [n [e|]];
    cbn [fst] in Hr |- *; lia.
Qed.

(** ** What the extractor returns *)

(** The loop over the tokens neither sends a request nor prints. *)
Lemma scan_pure (L : list string) (i : nat) (todo : list string) (w : World) :
  snd (scan L i todo w) = w.
Proof.
  revert i. induction todo as [|s todo IH]; intros i; [reflexivity|].
  cbn [scan]. destruct (MatchString keywords s); [|apply IH].
  unfold bind, index, slice, ret, throw.
  destruct (L !! (i + 1)%nat) as [next|]; [|reflexivity].
  destruct (MatchString issue next); [|apply IH].
  destruct (Bytes.slice_from 1 next); reflexivity.
Qed.

(** A number the loop returns was made by [Atoi] from an issue token. *)
Lemma scan_found (L : list string) (i : nat) (todo : list string) (w : World) (id : Z) :
  fst (scan L i todo w) = Done (Some id) ->
  exists next digits,
    MatchString issue next = true /\
    Bytes.slice_from 1 next = Some digits /\
    id = fst (Strconv.Atoi digits).
Proof.
  revert i. induction todo as [|s todo IH]; intros i; [discriminate|].
  cbn [scan]. destruct (MatchString keywords s); [|apply IH].
  unfold bind, index, slice, ret, throw.
  destruct (L !! (i + 1)%nat) as [next|]; [|discriminate].
  destruct (MatchString issue next) eqn:Hn; [|apply IH].
  destruct (Bytes.slice_from 1 next) as [digits|] eqn:Hd; [|discriminate].
  intros [= <-]. eauto.
Qed.

(** The loop gets through a body in which no keyword is followed by an issue
    token, and every keyword is followed by some token. *)
Lemma scan_without_pair (L : list string) (w : World) :
  (forall j s, L !! j = Some s -> passed_over L j s) ->
  scan L 0 L w = (Done None, w).
Proof.
  intros H. pose proof (scan_skip L L [] 0 w H) as Hs.
  rewrite app_nil_r in Hs. exact Hs.
Qed.

(** What [getLinkedIssue] does to the world, whatever it returns: one read
    request, and the records, the milestones and the later faults as they
    were. *)
Lemma getLinkedIssue_requests (g : GitHubIssue) (w : World) :
  calls (snd (getLinkedIssue g w))
  = calls w ++ [GetCall (Owner g) (Repo g) (Id g)] /\
  issues (snd (getLinkedIssue g w)) = issues w /\
  milestones (snd (getLinkedIssue g w)) = milestones w /\
  faults (snd (getLinkedIssue g w)) = List.tl (faults w).
Proof.
  unfold getLinkedIssue, Client.Get, bind.
  rewrite request_planned.
  destruct (planned w 0) as [msg|]; cbn [ret fst snd deref throw]; [repeat split|].
  change (issues (sent (GetCall (Owner g) (Repo g) (Id g)) w)) with (issues w).
  destruct (issues w !! Id g) as [iss|]; cbn [fst snd deref ret throw];
    [|repeat split].
  destruct (Issue.Body iss) as [body|]; cbn [ret]; [|repeat split].
  pose proof (scan_pure (Strings.Split body " ") 0 (Strings.Split body " ")
                (sent (GetCall (Owner g) (Repo g) (Id g)) w)) as Hw.
  destruct (scan (Strings.Split body " ") 0 (Strings.Split body " ")
              (sent (GetCall (Owner g) (Repo g) (Id g)) w)) as [[[id|]|p] w1];
    cbn [snd] in Hw; subst w1; repeat split.
Qed.

(** X10: for a body in which no keyword is followed by an issue token and
    none is the last token, and for a record without a body,
    [getLinkedIssue] returns no number and no error, after one read request
    and one log line. *)
Theorem getLinkedIssue_without_pair (g : GitHubIssue) (w : World) (iss : Issue.t) :
  planned w 0 = None ->
  issues w !! Id g = Some iss ->
  no_pair iss ->
  getLinkedIssue g w
  = (Done (None, None),
     logged "[DEBUG] no special keywords found in issue description"
       (sent (GetCall (Owner g) (Repo g) (Id g)) w)).
Proof.
  intros Hp Hi Hno. unfold getLinkedIssue, Client.Get, bind.
  rewrite request_planned, Hp. cbn [ret fst snd].
  change (issues (sent (GetCall (Owner g) (Repo g) (Id g)) w)) with (issues w).
  rewrite Hi. cbn [fst snd deref ret]. unfold no_pair in Hno.
  destruct (Issue.Body iss) as [body|]; [|reflexivity].
  rewrite (scan_without_pair _ _ Hno). reflexivity.
Qed.

Lemma getLinkedIssue_without_pair_witness :
  let w := Fixtures.tracker []
             [(10, Fixtures.record (Some "Related to #42, fixes nothing") "closed" None)] [] in
  getLinkedIssue (Fixtures.pull 10) w
  = (Done (None, None),
     logged "[DEBUG] no special keywords found in issue description"
       (sent (GetCall "octo" "demo" 10) w)).
Proof.
  intros w.
  apply (getLinkedIssue_without_pair (Fixtures.pull 10) w
           (Fixtures.record (Some "Related to #42, fixes nothing") "closed" None)).
  - reflexivity.
  - reflexivity.
  - intros [|[|[|[|[|j]]]]] s [= <-]; intros H; vm_compute in H; try discriminate.
    eexists. split; [reflexivity | vm_compute; reflexivity].
Defined.

(** X11: a number that [getLinkedIssue] returns is not negative and not
    above the largest 64-bit integer: the token has no sign, and [Atoi]
    clamps what is out of range. *)
Theorem getLinkedIssue_number_in_range
  (g : GitHubIssue) (w : World) (id : Z) (e : option error) :
  fst (getLinkedIssue g w) = Done (Some id, e) ->
  0 <= id <= Strconv.maxInt64.
Proof.
  unfold getLinkedIssue, Client.Get, bind.
  rewrite request_planned.
  destruct (planned w 0) as [msg|]; cbn [ret fst snd deref throw]; [discriminate|].
  change (issues (sent (GetCall (Owner g) (Repo g) (Id g)) w)) with (issues w).
  destruct (issues w !! Id g) as [iss|]; cbn [fst snd deref ret throw];
    [|discriminate].
  destruct (Issue.Body iss) as [body|]; cbn [ret fst]; [|discriminate].
  destruct (scan (Strings.Split body " ") 0 (Strings.Split body " ")
              (sent (GetCall (Owner g) (Repo g) (Id g)) w)) as [[[id'|]|p] w1] eqn:Hs;
    cbn [fst]; try discriminate.
  intros [= -> _].
  destruct (scan_found _ _ _ _ id ltac:(rewrite Hs; reflexivity))
    as (next & digits & Hn & Hd & ->).
  apply MatchString_true in Hn as (i & _ & Hn).
  apply run_issue in Hn as (-> & d & rest & Hnext & Hdig).
  cbn [Bytes.drop_bytes] in Hnext. subst next.
  cbn [Bytes.slice_from] in Hd. injection Hd as <-.
  split; [apply Atoi_non_negative, Hdig | apply Atoi_in_range].
Qed.

Lemma getLinkedIssue_number_in_range_witness :
  fst (getLinkedIssue (Fixtures.pull 10)
         (Fixtures.tracker []
            [(10, Fixtures.record (Some "closes #99999999999999999999") "closed" None)] []))
  = Done (Some Strconv.maxInt64, None) /\
  0 <= Strconv.maxInt64 <= Strconv.maxInt64.
Proof.
  split; [vm_compute; reflexivity|].
  apply (getLinkedIssue_number_in_range (Fixtures.pull 10)
           (Fixtures.tracker []
              [(10, Fixtures.record (Some "closes #99999999999999999999") "closed" None)] [])
           Strconv.maxInt64 None).
  vm_compute. reflexivity.
Defined.

(** X12: when the issue token of the first pair has a byte that is no digit
    after its first digit, and is short enough for the fast path of [Atoi],
    [getLinkedIssue] returns the number 0 and no error. *)
Theorem getLinkedIssue_zero_for_trailing_bytes
  (g : GitHubIssue) (w : World) (iss : Issue.t) (body : string)
  (pre post : list string) (k : string) (d : ascii) (rest : string) :
  planned w 0 = None ->
  issues w !! Id g = Some iss ->
  Issue.Body iss = Some body ->
  Strings.Split body " " = pre ++ k :: String "#" (String d rest) :: post ->
  MatchString keywords k = true ->
  Bytes.is_digit d = true ->
  Bytes.all_bytes Bytes.is_digit rest = false ->
  (String.length rest < 18)%nat ->
  (forall j s, pre !! j = Some s ->
     passed_over (pre ++ k :: String "#" (String d rest) :: post) j s) ->
  fst (getLinkedIssue g w) = Done (Some 0, None).
Proof.
  intros Hp Hi Hb HS Hk Hd Hrest Hlen Hpre.
  unfold getLinkedIssue, Client.Get, bind.
  rewrite request_planned, Hp. cbn [ret fst snd].
  change (issues (sent (GetCall (Owner g) (Repo g) (Id g)) w)) with (issues w).
  rewrite Hi. cbn [fst snd deref ret]. rewrite Hb, HS.
  assert (Hissue : MatchString issue (String "#" (String d rest)) = true).
  { apply MatchString_true. exists 0%nat. split; [lia|].
    apply run_issue. split; [reflexivity|]. eauto. }
  rewrite (scan_first_pair pre post k (String "#" (String d rest)) (String d rest)
             _ Hk Hissue eq_refl Hpre).
  rewrite (Atoi_trailing_bytes d rest Hd Hrest Hlen). reflexivity.
Qed.

Lemma getLinkedIssue_zero_for_trailing_bytes_witness :
  fst (getLinkedIssue (Fixtures.pull 10)
         (Fixtures.tracker []
            [(10, Fixtures.record (Some "This resolves #17; see the log") "closed" None)] []))
  = Done (Some 0, None).
Proof.
  apply (getLinkedIssue_zero_for_trailing_bytes (Fixtures.pull 10) _
           (Fixtures.record (Some "This resolves #17; see the log") "closed" None)
           "This resolves #17; see the log" ["This"] ["see"; "the"; "log"]
           "resolves" "1" "7;"); try reflexivity.
  - simpl. lia.
  - intros [|[|j]] s [= <-]; intros H; vm_compute in H; discriminate.
Defined.

(** X13: whatever [getLinkedIssue] returns, the error next to it is nil, so
    the branch of [run] that wraps its error is never taken. *)
Theorem getLinkedIssue_never_returns_an_error
  (g : GitHubIssue) (w : World) (r : option Z) (e : option error) :
  fst (getLinkedIssue g w) = Done (r, e) -> e = None.
Proof.
  unfold getLinkedIssue, Client.Get, bind.
  rewrite request_planned.
  destruct (planned w 0) as [msg|]; cbn [ret fst snd deref throw]; [discriminate|].
  change (issues (sent (GetCall (Owner g) (Repo g) (Id g)) w)) with (issues w).
  destruct (issues w !! Id g) as [iss|]; cbn [fst snd deref ret throw];
    [|discriminate].
  destruct (Issue.Body iss) as [body|]; cbn [ret fst].
  - destruct (scan (Strings.Split body " ") 0 (Strings.Split body " ")
                (sent (GetCall (Owner g) (Repo g) (Id g)) w)) as [[[id|]|p] w1];
      cbn [fst]; intros [= _ <-] || discriminate; reflexivity.
  - intros [= _ <-]. reflexivity.
Qed.

Lemma getLinkedIssue_never_returns_an_error_witness :
  fst (getLinkedIssue (Fixtures.pull 10)
         (Fixtures.tracker []
            [(10, Fixtures.record (Some "Fixes #42.") "closed" None)] []))
  = Done (Some 0, None) /\ (None : option error) = None.
Proof.
  split; [vm_compute; reflexivity|].
  apply (getLinkedIssue_never_returns_an_error (Fixtures.pull 10)
           (Fixtures.tracker []
              [(10, Fixtures.record (Some "Fixes #42.") "closed" None)] [])
           (Some 0) None).
  vm_compute. reflexivity.
Defined.

Lemma getLinkedIssue_links (g : GitHubIssue) (w : World) (iss : Issue.t) (id : Z) :
  planned w 0 = None ->
  issues w !! Id g = Some iss ->
  links iss id ->
  getLinkedIssue g w
  = (Done (Some id, None), sent (GetCall (Owner g) (Repo g) (Id g)) w).
Proof.
  intros Hp Hi (body & pre & post & k & next & digits & Hb & HS & Hk & Hn & Hd & Hpre & ->).
  unfold getLinkedIssue, Client.Get, bind.
  rewrite request_planned, Hp. cbn [ret fst snd].
  change (issues (sent (GetCall (Owner g) (Repo g) (Id g)) w)) with (issues w).
  rewrite Hi. cbn [fst snd deref ret]. rewrite Hb, HS.
  rewrite (scan_first_pair pre post k next digits _ Hk Hn Hd Hpre). reflexivity.
Qed.

(** ** What the applier does to the record *)

(** X15: on a record that is closed and on no milestone, with both requests
    going through, [updateMilestone] returns no error, sends one edit,
    leaves the record on the milestone with the given number and every other
    record as it was. *)
Theorem updateMilestone_sets_milestone
  (g : GitHubIssue) (milestoneId : Z) (w : World) (iss : Issue.t)
  (m : Milestone.t) :
  planned w 0 = None -> planned w 1 = None ->
  issues w !! Id g = Some iss ->
  Issue.Milestone iss = None -> closed iss = true ->
  List.find (Client.has_number milestoneId) (milestones w) = Some m ->
  fst (updateMilestone g milestoneId w) = Done None /\
  writes (snd (updateMilestone g milestoneId w))
  = writes w ++ [EditCall (Owner g) (Repo g) (Id g) milestoneId] /\
  milestone_of (snd (updateMilestone g milestoneId w)) (Id g) = Some m /\
  Milestone.Number m = Some milestoneId /\
  forall n, n <> Id g ->
    issues (snd (updateMilestone g milestoneId w)) !! n = issues w !! n.
Proof.
  intros H0 H1 Hi Hm Hc Hf.
  rewrite (updateMilestone_applies g milestoneId w iss m H0 H1 Hi Hm Hc Hf).
  cbn [fst snd]. split; [reflexivity|]. split.
  { unfold writes. cbn [calls]. rewrite !List.filter_app. cbn [List.filter is_write].
    rewrite app_nil_r. reflexivity. }
  split.
  { unfold milestone_of. cbn [issues]. rewrite lookup_insert_eq. reflexivity. }
  split.
  { apply find_some in Hf as [_ Hn]. unfold Client.has_number in Hn.
    destruct (Milestone.Number m) as [k|]; [|discriminate].
    apply Z.eqb_eq in Hn. congruence. }
  intros n Hn. cbn [issues]. apply lookup_insert_ne. congruence.
Qed.

Lemma updateMilestone_sets_milestone_witness :
  let w := Fixtures.tracker
             [Fixtures.open_milestone "v0.9.0" 3; Fixtures.open_milestone "v1.0.0" 5]
             [(7, Fixtures.record None "Closed" None);
              (8, Fixtures.record None "open" None)] [] in
  milestone_of (snd (updateMilestone (Fixtures.pull 7) 5 w)) 7
  = Some (Fixtures.open_milestone "v1.0.0" 5) /\
  issues (snd (updateMilestone (Fixtures.pull 7) 5 w)) !! 8 = issues w !! 8.
Proof.
  intros w.
  destruct (updateMilestone_sets_milestone (Fixtures.pull 7) 5 w
              (Fixtures.record None "Closed" None)
              (Fixtures.open_milestone "v1.0.0" 5)
              eq_refl eq_refl eq_refl eq_refl eq_refl eq_refl)
    as (_ & _ & Hm & _ & Hother).
  split; [exact Hm | apply Hother; discriminate].
Defined.

(** X16: on a record that is on a milestone, whatever its state and whatever
    the number asked for, [updateMilestone] only reads: it logs the title of
    the milestone the record is on and returns no error. *)
Theorem updateMilestone_already_milestoned
  (g : GitHubIssue) (milestoneId : Z) (w : World) (iss : Issue.t)
  (m : Milestone.t) (title : string) :
  planned w 0 = None ->
  issues w !! Id g = Some iss ->
  Issue.Milestone iss = Some m ->
  Milestone.Title m = Some title ->
  updateMilestone g milestoneId w
  = (Done None,
     logged ("[DEBUG] github issue #" ++ Strconv.Itoa (Id g)
             ++ " already has milestone " ++ title)
       (sent (GetCall (Owner g) (Repo g) (Id g)) w)).
Proof.
  intros Hp Hi Hm Ht. unfold updateMilestone, Client.Get, bind.
  rewrite request_planned, Hp. cbn [ret fst snd].
  change (issues (sent (GetCall (Owner g) (Repo g) (Id g)) w)) with (issues w).
  rewrite Hi. cbn [fst snd deref ret]. rewrite Hm. cbn [deref ret].
  rewrite Ht. reflexivity.
Qed.

Lemma updateMilestone_already_milestoned_witness :
  let w := Fixtures.tracker [Fixtures.open_milestone "v1.0.0" 5]
             [(7, Fixtures.record None "open"
                    (Some (Fixtures.open_milestone "v0.9.0" 3)))] [] in
  updateMilestone (Fixtures.pull 7) 5 w
  = (Done None,
     logged "[DEBUG] github issue #7 already has milestone v0.9.0"
       (sent (GetCall "octo" "demo" 7) w)).
Proof.
  intros w.
  apply (updateMilestone_already_milestoned (Fixtures.pull 7) 5 w
           (Fixtures.record None "open" (Some (Fixtures.open_milestone "v0.9.0" 3)))
           (Fixtures.open_milestone "v0.9.0" 3) "v0.9.0"); reflexivity.
Defined.

(** X17: run a second time on the world the first run left,
    [updateMilestone] reads the record, finds the milestone the first run
    set, logs it and sends no edit. *)
Theorem updateMilestone_twice
  (g : GitHubIssue) (milestoneId : Z) (w : World) (iss : Issue.t)
  (m : Milestone.t) (title : string) :
  planned w 0 = None -> planned w 1 = None -> planned w 2 = None ->
  issues w !! Id g = Some iss ->
  Issue.Milestone iss = None -> closed iss = true ->
  List.find (Client.has_number milestoneId) (milestones w) = Some m ->
  Milestone.Title m = Some title ->
  let w1 := snd (updateMilestone g milestoneId w) in
  updateMilestone g milestoneId w1
  = (Done None,
     logged ("[DEBUG] github issue #" ++ Strconv.Itoa (Id g)
             ++ " already has milestone " ++ title)
       (sent (GetCall (Owner g) (Repo g) (Id g)) w1)).
Proof.
  intros H0 H1 H2 Hi Hm Hc Hf Ht w1. subst w1.
  rewrite (updateMilestone_applies g milestoneId w iss m H0 H1 Hi Hm Hc Hf).
  cbn [snd].
  set (w1 := {| milestones := milestones w;
                issues := <[Id g := on_milestone iss m]> (issues w);
                faults := List.tl (List.tl (faults w));
                calls := (calls w ++ [GetCall (Owner g) (Repo g) (Id g)])
                         ++ [EditCall (Owner g) (Repo g) (Id g) milestoneId];
                output := output w |}).
  assert (Hp : planned w1 0 = None).
  { unfold planned in *. cbn [w1 faults].
    destruct (faults w) as [|f0 [|f1 fs]]; cbn in *; auto. }
  unfold updateMilestone, Client.Get, bind.
  rewrite request_planned, Hp. cbn [ret fst snd].
  change (issues (sent (GetCall (Owner g) (Repo g) (Id g)) w1))
    with (<[Id g := on_milestone iss m]> (issues w)).
  rewrite lookup_insert_eq. cbn [fst snd deref ret on_milestone Issue.Milestone].
  rewrite Ht. reflexivity.
Qed.

Lemma updateMilestone_twice_witness :
  let w := Fixtures.tracker [Fixtures.open_milestone "v0.9.0" 3]
             [(7, Fixtures.record None "closed" None)] [] in
  let w1 := snd (updateMilestone (Fixtures.pull 7) 3 w) in
  writes w1 = [EditCall "octo" "demo" 7 3] /\
  updateMilestone (Fixtures.pull 7) 3 w1
  = (Done None,
     logged "[DEBUG] github issue #7 already has milestone v0.9.0"
       (sent (GetCall "octo" "demo" 7) w1)).
Proof.
  intros w w1. split; [vm_compute; reflexivity|].
  apply (updateMilestone_twice (Fixtures.pull 7) 3 w
           (Fixtures.record None "closed" None)
           (Fixtures.open_milestone "v0.9.0" 3) "v0.9.0"); reflexivity.
Defined.

(** ** The configuration *)

(** The text before the first slash is the first element of the split. *)
Lemma Split_first_segment (owner rest : string) :
  has_slash owner = false ->
  Strings.Split (owner ++ String "/" rest)%string "/" = owner :: Strings.Split rest "/".
Proof.
  unfold has_slash.
  induction owner as [|c s IH]; intros H.
  - change (("" ++ String "/" rest)%string) with (String "/" rest).
    cbn [Strings.Split]. rewrite Ascii.eqb_refl. reflexivity.
  - cbn [list_ascii_of_string existsb] in H. apply orb_false_iff in H as [Hc Hs].
    change ((String c s ++ String "/" rest)%string)
      with (String c (s ++ String "/" rest)%string).
    cbn [Strings.Split]. rewrite Ascii.eqb_sym, Hc, (IH Hs). reflexivity.
Qed.

Lemma Split_owner_repo (owner repo : string) :
  has_slash owner = false -> has_slash repo = false ->
  Strings.Split (owner ++ String "/" repo)%string "/" = [owner; repo].
Proof.
  intros Ho Hr. rewrite (Split_first_segment _ _ Ho), (Split_without_separator _ Hr).
  reflexivity.
Qed.

(** X20: when [pr_number] is no number, an unset variable included, the
    process ends with status 1 and the wrapped error of [Atoi], before any
    request is sent. *)
Theorem main_bad_pr_number (env : Env) (w : World) (n : Z) (e : Strconv.NumErr) :
  has_slash (github_repository env) = true ->
  Strconv.Atoi (pr_number env) = (n, Some e) ->
  main env w
  = (1, {| milestones := milestones w; issues := issues w;
           faults := faults w; calls := calls w;
           output := output w ++
             [Fatal (Errorf "parsing pr number: "
                       (NumError "Atoi" (pr_number env) e))] |}).
Proof.
  intros Hs Ha. apply Split_with_separator in Hs.
  unfold main, run, bind, index.
  destruct (Strings.Split (github_repository env) "/") as [|owner [|repo rest]];
    cbn [length] in Hs; try lia.
  cbn [lookup list_lookup ret]. rewrite Ha. reflexivity.
Qed.

Lemma main_bad_pr_number_witness :
  let w := Fixtures.tracker [Fixtures.open_milestone "v0.9.0" 3]
             [(10, Fixtures.record None "closed" None)] [] in
  main (Fixtures.env "octo/demo" "") w
  = (1, {| milestones := milestones w; issues := issues w;
           faults := faults w; calls := calls w;
           output := output w ++
             [Fatal (Errorf "parsing pr number: "
                       (NumError "Atoi" "" Strconv.ErrSyntax))] |}).
Proof.
  intros w.
  apply (main_bad_pr_number (Fixtures.env "octo/demo" "") w 0 Strconv.ErrSyntax);
    reflexivity.
Defined.

(** X21: with [github_repository] of the form owner/repo, the list request
    goes to that owner and repository; when it fails the process ends with
    status 1, its error wrapped twice, and no other request is sent. *)
Theorem main_list_error
  (env : Env) (w : World) (owner repo msg : string) (prId : Z) :
  github_repository env = (owner ++ String "/" repo)%string ->
  has_slash owner = false -> has_slash repo = false ->
  Strconv.Atoi (pr_number env) = (prId, None) ->
  planned w 0 = Some msg ->
  main env w
  = (1, {| milestones := milestones w; issues := issues w;
           faults := List.tl (faults w);
           calls := calls w ++ [ListMilestonesCall owner repo];
           output := output w ++
             [Fatal (Errorf "getting milestone id: "
                       (Errorf "retrieving list of milestones: "
                          (ClientError msg)))] |}).
Proof.
  intros Hg Ho Hr Ha Hp.
  unfold main, run, bind, index.
  rewrite Hg, (Split_owner_repo _ _ Ho Hr). cbn [lookup list_lookup ret]. rewrite Ha.
  rewrite (getMilestoneId_list_error _ w msg Hp). reflexivity.
Qed.

Lemma main_list_error_witness :
  let w := Fixtures.tracker [Fixtures.open_milestone "v0.9.0" 3]
             [(10, Fixtures.record None "closed" None)]
             [Some "401 Bad credentials"] in
  main (Fixtures.env "octo/demo" "10") w
  = (1, {| milestones := milestones w; issues := issues w;
           faults := [];
           calls := [ListMilestonesCall "octo" "demo"];
           output :=
             [Fatal (Errorf "getting milestone id: "
                       (Errorf "retrieving list of milestones: "
                          (ClientError "401 Bad credentials")))] |}).
Proof.
  intros w.
  apply (main_list_error (Fixtures.env "octo/demo" "10") w "octo" "demo"
           "401 Bad credentials" 10); reflexivity.
Defined.

(** ** Runs that reach the pull request *)

(** The fault planned for a request, seen from the world after one request. *)
Lemma planned_after (w w' : World) (k : nat) :
  faults w' = List.tl (faults w) -> planned w' k = planned w (S k).
Proof.
  unfold planned. intros ->. destruct (faults w) as [|f fs]; reflexivity.
Qed.

Lemma planned_after_three (w w' : World) (k : nat) :
  faults w' = List.tl (List.tl (List.tl (faults w))) ->
  planned w' k = planned w (3 + k).
Proof.
  unfold planned. intros ->. destruct (faults w) as [|f0 [|f1 [|f2 fs]]]; reflexivity.
Qed.

(** A number carried by a milestone of the list is found by the tracker. *)
Lemma find_has_number (n : Z) (m : Milestone.t) (l : list Milestone.t) :
  In m l -> Milestone.Number m = Some n ->
  exists m', List.find (Client.has_number n) l = Some m' /\
             Milestone.Number m' = Some n.
Proof.
  intros Hin Hn.
  destruct (List.find (Client.has_number n) l) as [m'|] eqn:Hf.
  - exists m'. split; [reflexivity|].
    apply find_some in Hf as [_ H]. unfold Client.has_number in H.
    destruct (Milestone.Number m') as [k|]; [|discriminate].
    apply Z.eqb_eq in H. congruence.
  - pose proof (find_none _ _ Hf m Hin) as H. unfold Client.has_number in H.
    rewrite Hn, Z.eqb_refl in H. discriminate.
Qed.


(** X22: when the pull request cannot be read, the error of
    [updateMilestone] reaches [main] as it is, the process ends with status
    1 after two requests, and no record is changed: the linked issue is not
    looked for. *)
Theorem main_pull_request_read_error
  (env : Env) (w : World) (owner repo msg : string) (rest : list string)
  (prId milestoneId : Z) :
  Strings.Split (github_repository env) "/" = owner :: repo :: rest ->
  Strconv.Atoi (pr_number env) = (prId, None) ->
  fst (getMilestoneId {| Owner := owner; Repo := repo; Id := prId |} w)
  = Done (Some milestoneId, None) ->
  planned w 1 = Some msg ->
  fst (main env w) = 1 /\
  calls (snd (main env w))
  = calls w ++ [ListMilestonesCall owner repo; GetCall owner repo prId] /\
  issues (snd (main env w)) = issues w /\
  output (snd (main env w))
  = output (snd (getMilestoneId {| Owner := owner; Repo := repo; Id := prId |} w))
    ++ [Fatal (Errorf ("getting issue #" ++ Strconv.Itoa prId ++ ": ")
                 (ClientError msg))].
Proof.
  intros HS HA Hg Hp.
  set (pr := {| Owner := owner; Repo := repo; Id := prId |}) in *.
  destruct (getMilestoneId_requests pr w) as (Hc & Hi & _ & Hf).
  unfold main, run, bind, index. rewrite HS. cbn [lookup list_lookup ret].
  rewrite HA. fold pr.
  destruct (getMilestoneId pr w) as [r w1] eqn:Hm. cbn [fst snd] in *. subst r.
  cbn [fst snd].
  rewrite (updateMilestone_get_error pr milestoneId w1 msg)
    by (rewrite (planned_after w w1 0 Hf); exact Hp).
  unfold ret. cbn [fst snd calls issues output sent].
  rewrite Hc, Hi, <- app_assoc.
  repeat split.
Qed.

Lemma main_pull_request_read_error_witness :
  let w := Fixtures.tracker [Fixtures.open_milestone "v0.9.0" 3]
             [(10, Fixtures.record (Some "Fixes #7") "closed" None);
              (7, Fixtures.record None "closed" None)]
             [None; Some "503 Service Unavailable"] in
  fst (main (Fixtures.env "octo/demo" "10") w) = 1 /\
  calls (snd (main (Fixtures.env "octo/demo" "10") w))
  = [ListMilestonesCall "octo" "demo"; GetCall "octo" "demo" 10] /\
  issues (snd (main (Fixtures.env "octo/demo" "10") w)) = issues w.
Proof.
  intros w.
  destruct (main_pull_request_read_error (Fixtures.env "octo/demo" "10") w
              "octo" "demo" "503 Service Unavailable" [] 10 3
              eq_refl eq_refl eq_refl eq_refl) as (H1 & H2 & H3 & _).
  repeat split; assumption.
Defined.

(** The run as far as the edit of the pull request: the world after it, and
    what is left to run. *)
Lemma run_after_pull_request
  (env : Env) (w : World) (owner repo : string) (rest : list string)
  (prId milestoneId : Z) (iss : Issue.t) :
  Strings.Split (github_repository env) "/" = owner :: repo :: rest ->
  Strconv.Atoi (pr_number env) = (prId, None) ->
  fst (getMilestoneId {| Owner := owner; Repo := repo; Id := prId |} w)
  = Done (Some milestoneId, None) ->
  planned w 1 = None -> planned w 2 = None ->
  issues w !! prId = Some iss ->
  Issue.Milestone iss = None -> closed iss = true ->
  exists m w2,
    List.find (Client.has_number milestoneId) (milestones w) = Some m /\
    Milestone.Number m = Some milestoneId /\
    milestones w2 = milestones w /\
    issues w2 = <[prId := on_milestone iss m]> (issues w) /\
    faults w2 = List.tl (List.tl (List.tl (faults w))) /\
    writes w2 = writes w ++ [EditCall owner repo prId milestoneId] /\
    run env w
    = (li <- getLinkedIssue {| Owner := owner; Repo := repo; Id := prId |} ;;
       match snd li with
       | Some e =>
           ret (Some (Errorf ("getting linked issues for #"
                              ++ Strconv.Itoa prId ++ ": ") e))
       | None =>
           match fst li with
           | Some liId =>
               updateMilestone {| Owner := owner; Repo := repo; Id := liId |}
                 milestoneId
           | None => ret None
           end
       end) w2.
Proof.
  intros HS HA Hg H1 H2 Hi Hm Hc.
  set (pr := {| Owner := owner; Repo := repo; Id := prId |}) in *.
  destruct (getMilestoneId_requests pr w) as (Hcalls & Hiss & Hms & Hf).
  destruct (getMilestoneId_sound pr w milestoneId None Hg) as (m0 & Hin0 & _ & Hn0).
  destruct (find_has_number milestoneId m0 (milestones w) Hin0 Hn0) as (m & Hfind & Hn).
  unfold run, bind at 1 2 3, index. rewrite HS. cbn [lookup list_lookup ret].
  rewrite HA. fold pr.
  destruct (getMilestoneId pr w) as [r w1] eqn:Hgm. cbn [fst snd] in *. subst r.
  cbn [fst snd]. unfold bind at 1.
  rewrite (updateMilestone_applies pr milestoneId w1 iss m)
    by (rewrite ?(planned_after w w1 _ Hf), ?Hiss, ?Hms; assumption).
  eexists m, _. split; [|split; [|split; [|split; [|split; [|split; [|reflexivity]]]]]].
  - exact Hfind.
  - exact Hn.
  - cbn [milestones]. exact Hms.
  - cbn [issues]. rewrite Hiss. reflexivity.
  - cbn [faults]. rewrite Hf. reflexivity.
  - unfold writes. cbn [calls]. rewrite Hcalls, !List.filter_app.
    cbn [List.filter is_write]. rewrite !app_nil_r. reflexivity.
Qed.





(** X25: when the linked issue cannot be read, the process ends with status
    1 and the pull request stays on the milestone it was put on: the edit
    already sent is not taken back. *)
Theorem main_linked_issue_read_error
  (env : Env) (w : World) (owner repo msg : string) (rest : list string)
  (prId milestoneId liId : Z) (iss : Issue.t) :
  Strings.Split (github_repository env) "/" = owner :: repo :: rest ->
  Strconv.Atoi (pr_number env) = (prId, None) ->
  fst (getMilestoneId {| Owner := owner; Repo := repo; Id := prId |} w)
  = Done (Some milestoneId, None) ->
  planned w 1 = None -> planned w 2 = None -> planned w 3 = None ->
  planned w 4 = Some msg ->
  issues w !! prId = Some iss ->
  Issue.Milestone iss = None -> closed iss = true ->
  links iss liId ->
  fst (main env w) = 1 /\
  last (output (snd (main env w)))
  = Some (Fatal (Errorf ("getting issue #" ++ Strconv.Itoa liId ++ ": ")
                   (ClientError msg))) /\
  writes (snd (main env w)) = writes w ++ [EditCall owner repo prId milestoneId] /\
  exists m, Milestone.Number m = Some milestoneId /\
            milestone_of (snd (main env w)) prId = Some m.
Proof.
  intros HS HA Hg H1 H2 H3 H4 Hi Hm Hc Hlinks.
  destruct (run_after_pull_request env w owner repo rest prId milestoneId iss
              HS HA Hg H1 H2 Hi Hm Hc)
    as (m & w2 & Hfind & Hn & Hms & Hiss & Hf & Hw & Hrun).
  set (pr := {| Owner := owner; Repo := repo; Id := prId |}) in *.
  assert (Hl : getLinkedIssue pr w2
               = (Done (Some liId, None), sent (GetCall owner repo prId) w2)).
  { apply (getLinkedIssue_links pr w2 (on_milestone iss m)).
    - rewrite (planned_after_three w w2 0 Hf). exact H3.
    - rewrite Hiss. apply lookup_insert_eq.
    - exact Hlinks. }
  unfold bind in Hrun. rewrite Hl in Hrun. cbn [fst snd ret] in Hrun.
  set (w3 := sent (GetCall owner repo prId) w2) in *.
  assert (F3 : faults w3 = List.tl (faults w2)) by reflexivity.
  rewrite (updateMilestone_get_error _ milestoneId w3 msg) in Hrun
    by (rewrite (planned_after w2 w3 0 F3), (planned_after_three w w2 1 Hf); exact H4).
  unfold main. rewrite Hrun. cbn [fst snd output].
  split; [reflexivity|]. split; [apply last_snoc|]. split.
  - unfold writes in *. cbn [calls]. unfold w3. cbn [sent calls Id Owner Repo].
    rewrite !List.filter_app. cbn [List.filter is_write]. rewrite !app_nil_r.
    exact Hw.
  - exists m. split; [exact Hn|]. unfold milestone_of. cbn [issues sent].
    unfold w3. cbn [sent issues]. rewrite Hiss, lookup_insert_eq. reflexivity.
Qed.

Lemma main_linked_issue_read_error_witness :
  let w := Fixtures.tracker
             [Fixtures.open_milestone "v0.9.0" 3]
             [(10, Fixtures.record (Some "closes #7") "closed" None);
              (7, Fixtures.record None "closed" None)]
             [None; None; None; None; Some "502 Bad Gateway"] in
  fst (main (Fixtures.env "octo/demo" "10") w) = 1 /\
  writes (snd (main (Fixtures.env "octo/demo" "10") w))
  = [EditCall "octo" "demo" 10 3] /\
  milestone_of (snd (main (Fixtures.env "octo/demo" "10") w)) 7 = None.
Proof.
  intros w.
  destruct (main_linked_issue_read_error
              (Fixtures.env "octo/demo" "10") w "octo" "demo" "502 Bad Gateway" [] 10 3 7
              (Fixtures.record (Some "closes #7") "closed" None))
    as (H0 & _ & Hw & _); try reflexivity.
  - exists "closes #7", [], [], "closes", "#7", "7".
    repeat split; try reflexivity.
    intros j s H. destruct j; discriminate H.
  - split; [exact H0|]. split; [exact Hw|]. vm_compute. reflexivity.
Defined.

(** ** What a run writes *)

(** What [updateMilestone] does to the tracker, whatever it returns: it
    sends no edit or the one edit of its issue to its milestone, and leaves
    the milestones as they were. *)
Lemma updateMilestone_effects (g : GitHubIssue) (milestoneId : Z) (w : World) :
  milestones (snd (updateMilestone g milestoneId w)) = milestones w /\
  exists l,
    writes (snd (updateMilestone g milestoneId w)) = writes w ++ l /\
    (l = [] \/ l = [EditCall (Owner g) (Repo g) (Id g) milestoneId]).
Proof.
  assert (Hread : forall c w0, is_write c = false ->
            writes (sent c w0) = writes w0 ++ []).
  { intros c w0 Hc. unfold writes. cbn [sent calls].
    rewrite List.filter_app. cbn [List.filter]. rewrite Hc. reflexivity. }
  unfold updateMilestone, Client.Get, bind.
  rewrite request_planned.
  set (w1 := sent (GetCall (Owner g) (Repo g) (Id g)) w).
  assert (H1 : writes w1 = writes w ++ []) by (apply Hread; reflexivity).
  assert (M1 : milestones w1 = milestones w) by reflexivity.
  destruct (planned w 0) as [msg|]; cbn [ret fst snd].
  { split; [exact M1|]. exists []. auto. }
  destruct (issues w1 !! Id g) as [iss|]; cbn [fst snd deref ret throw];
    [|split; [exact M1|]; exists []; auto].
  assert (Hno : forall r : outcome (option error) * World,
            snd r = w1 \/ (exists t, snd r = logged t w1) ->
            milestones (snd r) = milestones w /\
            exists l, writes (snd r) = writes w ++ l /\
              (l = [] \/ l = [EditCall (Owner g) (Repo g) (Id g) milestoneId])).
  { intros r [-> | [t ->]]; (split; [exact M1|]); exists []; auto. }
  destruct (Issue.Milestone iss) as [m|]; cbn [ret deref throw].
  { destruct (Milestone.Title m) as [title|]; cbn [ret deref throw];
      apply Hno; [right; eexists; reflexivity | left; reflexivity]. }
  destruct (Issue.State iss) as [state|]; cbn [ret deref throw];
    [|apply Hno; left; reflexivity].
  destruct (Strings.EqualFold state "closed"); cbn [ret deref throw];
    [|apply Hno; left; reflexivity].
  unfold Client.Edit, bind. rewrite request_planned.
  set (w2 := sent (EditCall (Owner g) (Repo g) (Id g) milestoneId) w1).
  assert (H2 : writes w2
               = writes w ++ [EditCall (Owner g) (Repo g) (Id g) milestoneId]).
  { unfold writes, w2, w1. cbn [sent calls]. rewrite !List.filter_app.
    cbn [List.filter is_write]. rewrite app_nil_r. reflexivity. }
  assert (M2 : milestones w2 = milestones w) by reflexivity.
  destruct (planned w1 0) as [msg|]; cbn [ret fst snd].
  { split; [exact M2|]. eexists. split; [exact H2|]. auto. }
  destruct (issues w2 !! Id g) as [i2|]; cbn [fst snd ret];
    [|split; [exact M2|]; eexists; split; [exact H2|]; auto].
  destruct (List.find (Client.has_number milestoneId) (milestones w2));
    cbn [fst snd ret]; (split; [exact M2|]); eexists; (split; [exact H2|]); auto.
Qed.

Lemma reads_leave_writes (w w' : World) (c : call) :
  calls w' = calls w ++ [c] -> is_write c = false -> writes w' = writes w.
Proof.
  intros Hc Hr. unfold writes. rewrite Hc, List.filter_app.
  cbn [List.filter]. rewrite Hr. apply app_nil_r.
Qed.

Lemma getMilestoneId_writes (g : GitHubIssue) (w : World) :
  writes (snd (getMilestoneId g w)) = writes w.
Proof.
  destruct (getMilestoneId_requests g w) as (Hc & _).
  eapply reads_leave_writes; [exact Hc | reflexivity].
Qed.

Lemma getLinkedIssue_writes (g : GitHubIssue) (w : World) :
  writes (snd (getLinkedIssue g w)) = writes w.
Proof.
  destruct (getLinkedIssue_requests g w) as (Hc & _).
  eapply reads_leave_writes; [exact Hc | reflexivity].
Qed.

Lemma main_writes_of_run (env : Env) (w : World) :
  writes (snd (main env w)) = writes (snd (run env w)).
Proof.
  unfold main. destruct (run env w) as [[[e|]|p] w']; reflexivity.
Qed.

(** X26: whatever the configuration and the tracker, and however the run
    ends, the process sends at most two writing requests, each an edit of an
    issue of the configured repository that sets the number of a milestone
    that is an open version. *)
Theorem main_only_sends_allowed_edits (env : Env) (w : World) :
  exists l,
    writes (snd (main env w)) = writes w ++ l /\
    (length l <= 2)%nat /\
    Forall (allowed_edit env w) l.
Proof.
  rewrite main_writes_of_run.
  assert (Hnone : forall w' : World,
            writes w' = writes w ->
            exists l, writes w' = writes w ++ l /\ (length l <= 2)%nat /\
                      Forall (allowed_edit env w) l).
  { intros w' Hr. exists []. rewrite app_nil_r. repeat split; auto. }
  unfold run, bind, index.
  destruct (Strings.Split (github_repository env) "/") as [|owner [|repo rest]] eqn:HS;
    cbn [lookup list_lookup ret throw snd]; try (apply Hnone; reflexivity).
  destruct (Strconv.Atoi (pr_number env)) as [prId [e|]];
    [cbn [ret snd]; apply Hnone; reflexivity|].
  set (pr := {| Owner := owner; Repo := repo; Id := prId |}).
  pose proof (getMilestoneId_writes pr w) as W1.
  destruct (getMilestoneId_requests pr w) as (_ & _ & M1 & _).
  pose proof (getMilestoneId_sound pr w) as Hsound.
  destruct (getMilestoneId pr w) as [[[mid e]|p] w1]; cbn [fst snd] in *;
    [|apply Hnone; exact W1].
  destruct e as [err|]; [cbn [ret snd]; apply Hnone; exact W1|].
  destruct mid as [milestoneId|].
  2: { unfold log_Printf, ret. cbn [snd]. apply Hnone. exact W1. }
  destruct (Hsound milestoneId None eq_refl) as (m & Hin & Hopen & Hnum).
  assert (Hedit : forall id, allowed_edit env w (EditCall owner repo id milestoneId)).
  { intros id. exists owner, repo, rest, id, milestoneId, m. rewrite HS. auto. }
  destruct (updateMilestone_effects pr milestoneId w1) as (M2 & l1 & W2 & Hl1).
  destruct (updateMilestone pr milestoneId w1) as [[[e|]|p] w2] eqn:Hu;
    cbn [fst snd ret] in *.
  1, 3: exists l1; rewrite W2, W1; split; [reflexivity|];
        destruct Hl1 as [-> | ->]; (split; [cbn; lia|]);
        repeat constructor; apply (Hedit prId).
  pose proof (getLinkedIssue_writes pr w2) as W3.
  destruct (getLinkedIssue pr w2) as [[[li e]|p] w3]; cbn [fst snd] in *.
  2: { exists l1. rewrite W3, W2, W1. split; [reflexivity|].
       destruct Hl1 as [-> | ->]; (split; [cbn; lia|]);
         repeat constructor; apply (Hedit prId). }
  assert (Hstop : exists l, writes w3 = writes w ++ l /\ (length l <= 2)%nat /\
                             Forall (allowed_edit env w) l).
  { exists l1. rewrite W3, W2, W1. split; [reflexivity|].
    destruct Hl1 as [-> | ->]; (split; [cbn; lia|]);
      repeat constructor; apply (Hedit prId). }
  destruct e as [err|]; [exact Hstop|].
  destruct li as [liId|]; [|exact Hstop].
  set (linked := {| Owner := owner; Repo := repo; Id := liId |}).
  destruct (updateMilestone_effects linked milestoneId w3) as (_ & l2 & W4 & Hl2).
  exists (l1 ++ l2). rewrite W4, W3, W2, W1, app_assoc. split; [reflexivity|].
  split.
  - rewrite length_app. destruct Hl1 as [-> | ->], Hl2 as [-> | ->]; cbn; lia.
  - apply Forall_app. split.
    + destruct Hl1 as [-> | ->]; repeat constructor; apply (Hedit prId).
    + destruct Hl2 as [-> | ->]; repeat constructor; apply (Hedit liId).
Qed.
